(** * OuijaBot: the comment-tree evaluation engine of [ouija.js]

    A shallow embedding of the classes [OuijaComment],
    [CommentDuplicateHandler] and [OuijaQuery] and of the functions
    [parseConfig], [countSymbols] and [processPending], followed by the
    properties of the specification that concern them.

    Conventions of the embedding.
    - A JavaScript string is the list of its UTF-16 code units, each a [Z].
    - A JavaScript number is [Z] where the program only ever holds an integer
      (scores, lengths, timestamps) and [number] where a string is converted.
    - The pieces of the run-time library whose tables are not part of the
      program ([String.prototype.toUpperCase], the conversion of a string to
      a number, [moment.duration], [os.EOL], [process.env.threshold]) are
      variables of the section [Engine]; module [Sample] instantiates them
      for the concrete runs.
    - The platform calls [snooObj.remove()] are recorded, in order, in the
      list [removals] of the query state. *)

From Stdlib Require Import ZArith List Bool Lia String Ascii.
From Stdlib Require QArith.
From Stdlib Require DecimalString.
From stdpp Require Import gmap list.

Import ListNotations.
Local Open Scope Z_scope.

(** ** JavaScript strings *)

Abbreviation jsstring := (list Z).

(** Code units of a literal made of ASCII characters. *)
Definition js (s : string) : jsstring :=
  List.map (fun a => Z.of_N (N_of_ascii a)) (list_ascii_of_string s).

Definition jsstring_eqb (a b : jsstring) : bool := bool_decide (a = b).

(** [x] is truthy: a string that is present and not empty. *)
Definition truthy (x : option jsstring) : bool :=
  match x with
  | Some (_ :: _) => true
  | _ => false
  end.

Definition inRange (lo hi u : Z) : bool := (lo <=? u) && (u <=? hi).

(** [\w] *)
Definition isWord (u : Z) : bool :=
  inRange 65 90 u || inRange 97 122 u || inRange 48 57 u || (u =? 95).

(** The line terminators, which [.] does not match. *)
Definition isLineTerminator (u : Z) : bool :=
  (u =? 10) || (u =? 13) || (u =? 8232) || (u =? 8233).

(** [\s], also the characters [trim] strips: WhiteSpace and LineTerminator. *)
Definition isSpace (u : Z) : bool :=
  inRange 9 13 u || (u =? 32) || (u =? 160) || (u =? 5760)
  || inRange 8192 8202 u || (u =? 8232) || (u =? 8233) || (u =? 8239)
  || (u =? 8287) || (u =? 12288) || (u =? 65279).

Definition isHighSurrogate (u : Z) : bool := inRange 55296 56319 u.
Definition isLowSurrogate (u : Z) : bool := inRange 56320 57343 u.

Fixpoint trimStart (s : jsstring) : jsstring :=
  match s with
  | u :: t => if isSpace u then trimStart t else s
  | [] => []
  end.

Definition trim (s : jsstring) : jsstring :=
  rev (trimStart (rev (trimStart s))).

(** [Array.from(string).length]: the string iterator yields a surrogate pair
    as one element and every other code unit alone. *)
Fixpoint countSymbols (s : jsstring) : nat :=
  match s with
  | [] => O
  | u :: t =>
      match t with
      | v :: t' =>
          if isHighSurrogate u && isLowSurrogate v
          then S (countSymbols t')
          else S (countSymbols t)
      | [] => 1%nat
      end
  end.

(** ** The link pattern [/\[(.*?)\]\(.*?\)/g] *)

Definition LBRACKET : Z := 91.
Definition RBRACKET : Z := 93.
Definition LPAREN : Z := 40.
Definition RPAREN : Z := 41.
Definition BACKSLASH : Z := 92.

(** [.*?\)] : the shortest run of non-terminators up to a closing
    parenthesis; the result is what follows the parenthesis. *)
Fixpoint matchTarget (s : jsstring) : option jsstring :=
  match s with
  | [] => None
  | u :: t =>
      if u =? RPAREN then Some t
      else if isLineTerminator u then None
      else matchTarget t
  end.

(** [(.*?)\]\(.*?\)] : the shortest group after which the rest of the
    pattern matches; the result is the group and what follows the match. *)
Fixpoint matchText (s : jsstring) : option (jsstring * jsstring) :=
  match s with
  | [] => None
  | u :: t =>
      let here :=
        match s with
        | a :: b :: r => if (a =? RBRACKET) && (b =? LPAREN) then matchTarget r else None
        | _ => None
        end in
      match here with
      | Some rest => Some ([], rest)
      | None =>
          if isLineTerminator u then None
          else match matchText t with
               | Some (g, rest) => Some (u :: g, rest)
               | None => None
               end
      end
  end.

(** [body.replace(link, '$1')]: every match, leftmost first, is replaced by
    its first group; the search resumes after the match.  [n] bounds the
    number of code units still to scan. *)
Fixpoint replaceLinks (n : nat) (s : jsstring) : jsstring :=
  match n with
  | O => s
  | S n' =>
      match s with
      | [] => []
      | u :: t =>
          if u =? LBRACKET then
            match matchText t with
            | Some (g, rest) => g ++ replaceLinks n' rest
            | None => u :: replaceLinks n' t
            end
          else u :: replaceLinks n' t
      end
  end.

Definition replaceLink (s : jsstring) : jsstring := replaceLinks (length s) s.

(** [body.replace('\\', '')]: a string pattern replaces its first
    occurrence only. *)
Fixpoint replaceFirst (x : Z) (s : jsstring) : jsstring :=
  match s with
  | [] => []
  | u :: t => if u =? x then t else u :: replaceFirst x t
  end.

(** [body.replace(/\W/g, '')] *)
Definition stripNonWord (s : jsstring) : jsstring := List.filter isWord s.

Definition DELETED : jsstring := Eval cbv in js "[deleted]".
Definition STAR : jsstring := Eval cbv in js "*".
Definition SHARP_S : jsstring := [223].
Definition GOODBYE : jsstring := Eval cbv in js "GOODBYE".

(** [goodbyeRegex.test(body)] with [goodbyeRegex = /^GOODBYE/]. *)
Fixpoint startsWith (p s : jsstring) : bool :=
  match p, s with
  | [], _ => true
  | a :: p', b :: s' => (a =? b) && startsWith p' s'
  | _ :: _, [] => false
  end.

Definition goodbyeRegex_test (s : jsstring) : bool := startsWith GOODBYE s.

(** ** JavaScript numbers obtained from strings *)

Inductive number : Type :=
  | NaN
  | NegInfinity
  | Num (q : QArith_base.Q)
  | PosInfinity.

Definition numZ (z : Z) : number := Num (QArith_base.inject_Z z).

Definition Qlt_bool (p q : QArith_base.Q) : bool := negb (QArith_base.Qle_bool q p).

(** [a < b] *)
Definition js_lt (a b : number) : bool :=
  match a, b with
  | NaN, _ | _, NaN => false
  | _, NegInfinity => false
  | NegInfinity, _ => true
  | PosInfinity, _ => false
  | _, PosInfinity => true
  | Num p, Num q => Qlt_bool p q
  end.

(** [a >= b]: false when either side is NaN, else the negation of [a < b]. *)
Definition js_ge (a b : number) : bool :=
  match a, b with
  | NaN, _ | _, NaN => false
  | _, _ => negb (js_lt a b)
  end.

(** ** Platform comments

    A comment as the platform hands it over.  [comment_created] and
    [comment_removed] are its properties [created] and [removed]: the
    program never names them, but reads them when the wrapper's own
    [created] or [removed] is falsy (see [get_created], [get_removed]). *)

Local Unset Elimination Schemes.

Inductive Comment : Type :=
  MkComment {
    comment_id : jsstring;
    comment_body : jsstring;
    comment_author : jsstring;     (* author.name *)
    comment_created_utc : Z;
    comment_created : Z;
    comment_score : Z;
    comment_banned_by : option jsstring;
    comment_removed : bool;
    comment_replies : list Comment
  }.

Local Set Elimination Schemes.

Inductive CommentType : Type := Letter | Goodbye | Invalid.

Inductive Reason : Type := invalid | self_reply | duplicate.

Record CompleteResponse : Type :=
  { letters : list jsstring; goodbye : Comment }.

Record IncompleteResponse : Type :=
  { partial_letters : list jsstring; lastComment : Comment }.

(** [responses.complete], [responses.incomplete] and the calls of
    [snooObj.remove()] made so far. *)
Record QueryState : Type :=
  { complete : list CompleteResponse;
    incomplete : list IncompleteResponse;
    removals : list (jsstring * Reason) }.

Definition emptyState : QueryState :=
  {| complete := []; incomplete := []; removals := [] |}.

Record Post : Type :=
  { post_title : jsstring;
    post_selftext : jsstring;
    post_url : jsstring;
    post_created_utc : Z;
    post_distinguished : option jsstring;
    post_comments : list Comment }.

(** What [runQuery] returns: the query object after [run]. *)
Record OuijaQuery : Type :=
  { query_post : Post;
    responses : QueryState;
    answered : bool }.

(** ** [parseConfig] *)

Definition COLON : Z := 58.
Definition PROTO : jsstring := Eval cbv in js "__proto__".

Fixpoint spanWord (s : jsstring) : jsstring * jsstring :=
  match s with
  | u :: t =>
      if isWord u then let (w, r) := spanWord t in (u :: w, r) else ([], s)
  | [] => ([], [])
  end.

(** The [exec] loop over [/(\w+)\s*:\s*(\w+)/g]: a match starts at the first
    code unit of a run of word characters, takes the whole run, and needs a
    colon and a second run, white space allowed around the colon; after a
    match the search resumes behind it, after a run that does not match it
    resumes behind the run.  Assigning [__proto__] a string leaves the
    object as it is. *)
Fixpoint parseConfigFrom (n : nat) (s : jsstring)
    (config : gmap jsstring jsstring) : gmap jsstring jsstring :=
  match n with
  | O => config
  | S n' =>
      match s with
      | [] => config
      | u :: t =>
          if isWord u then
            let (name, r1) := spanWord s in
            match trimStart r1 with
            | c :: r2 =>
                if c =? COLON then
                  let (value, r4) := spanWord (trimStart r2) in
                  match value with
                  | [] => parseConfigFrom n' r1 config
                  | _ :: _ =>
                      parseConfigFrom n' r4
                        (if jsstring_eqb name PROTO then config
                         else <[name := value]> config)
                  end
                else parseConfigFrom n' r1 config
            | [] => parseConfigFrom n' r1 config
            end
          else parseConfigFrom n' t config
      end
  end.

Definition parseConfig (input : jsstring) : gmap jsstring jsstring :=
  parseConfigFrom (length input) input ∅.

(** ** [/\[meta\]/i.test(title)] *)

(** A pattern character written in lower case matches itself and its
    upper-case form; any other pattern character matches itself. *)
Definition matchesIgnoreCase (p u : Z) : bool :=
  (u =? p) || (inRange 97 122 p && (u =? p - 32)).

Fixpoint startsWithIgnoreCase (p s : jsstring) : bool :=
  match p, s with
  | [], _ => true
  | a :: p', b :: s' => matchesIgnoreCase a b && startsWithIgnoreCase p' s'
  | _ :: _, [] => false
  end.

Fixpoint includesIgnoreCase (p s : jsstring) : bool :=
  startsWithIgnoreCase p s
  || match s with
     | [] => false
     | _ :: t => includesIgnoreCase p t
     end.

Definition META : jsstring := Eval cbv in js "[meta]".
Definition MODERATOR : jsstring := Eval cbv in js "moderator".

(** ** Number to string, for the integers the program prints *)

Definition numberToString (z : Z) : jsstring :=
  js (DecimalString.NilEmpty.string_of_int (Z.to_int z)).

(** ** The engine *)

Section Engine.

(** [String.prototype.toUpperCase]. *)
Variable toUpperCase : jsstring -> jsstring.
(** The conversion of a string to a number. *)
Variable ToNumber : jsstring -> number.
(** [moment.duration(iso)], in milliseconds; [None] when the duration is
    not a valid one. *)
Variable duration : jsstring -> option Z.
(** [os.EOL]. *)
Variable EOL : jsstring.
(** [process.env.threshold]; [None] when the variable is not set. *)
Variable COMMENT_SCORE_THRESHOLD : option jsstring.

(** *** [OuijaComment] *)

Definition parseBody (body : jsstring) : jsstring :=
  if jsstring_eqb body DELETED then STAR
  else
    let body := replaceLink body in
    let body := trim (replaceFirst BACKSLASH body) in
    let body :=
      if (1 <? countSymbols body)%nat then stripNonWord body else body in
    if jsstring_eqb body SHARP_S then body
    else toUpperCase body.

(** The fields the constructor sets: [this.body], [this.removed] (set to
    [true] for a banned comment, left undefined otherwise) and
    [this.type]. *)
Definition OuijaComment_body (c : Comment) : jsstring :=
  parseBody (comment_body c).

Definition OuijaComment_removed (c : Comment) : bool :=
  truthy (comment_banned_by c).

Definition OuijaComment_type (c : Comment) : CommentType :=
  if truthy (comment_banned_by c) then Invalid
  else if (countSymbols (OuijaComment_body c) =? 1)%nat then Letter
  else if goodbyeRegex_test (OuijaComment_body c) then Goodbye
  else Invalid.

(** The constructor returns a proxy whose [get] is
    [target[prop] || comment[prop]]: a property of the wrapper that is
    falsy (an empty [body], an undefined [removed], a zero [created]) is
    read from the platform comment instead. *)
Definition get_body (c : Comment) : jsstring :=
  match OuijaComment_body c with
  | [] => comment_body c
  | b => b
  end.

Definition get_removed (c : Comment) : bool :=
  OuijaComment_removed c || comment_removed c.

Definition get_created (c : Comment) : Z :=
  if comment_created_utc c =? 0 then comment_created c
  else comment_created_utc c.

Definition hasReplies (c : Comment) : bool :=
  (0 <? length (comment_replies c))%nat.

(** [remove(reason)] *)
Definition remove (c : Comment) (reason : Reason) (st : QueryState) : QueryState :=
  if get_removed c then st
  else {| complete := complete st;
          incomplete := incomplete st;
          removals := removals st ++ [(comment_id c, reason)] |}.

(** *** [CommentDuplicateHandler]

    [this.comments] starts as the empty object.  The names it inherits
    are identifiers with lower-case letters, while a key is a body that
    [toUpperCase] returned or a raw body whose normalization is empty: a
    lookup finds what [handle] has stored and nothing else. *)
Definition handle (comment : Comment)
    (h : gmap jsstring Comment * QueryState) : gmap jsstring Comment * QueryState :=
  let (comments, st) := h in
  let key := get_body comment in
  match comments !! key with
  | Some existing =>
      if (get_created existing <? get_created comment) && negb (hasReplies comment)
      then (comments, remove comment duplicate st)
      else if negb (hasReplies existing)
      then (<[key := comment]> comments, remove existing duplicate st)
      else (comments, st)
  | None => (<[key := comment]> comments, st)
  end.

(** *** [OuijaQuery] *)

Definition MINSCORE : jsstring := Eval cbv in js "minscore".
Definition MINLETTERS : jsstring := Eval cbv in js "minletters".
Definition TIME : jsstring := Eval cbv in js "time".
Definition PT : jsstring := Eval cbv in js "PT".

Section Query.

Variable post : Post.

Definition config : gmap jsstring jsstring := parseConfig (post_selftext post).
Definition isMeta : bool := includesIgnoreCase META (post_title post).
Definition isModPost : bool :=
  match post_distinguished post with
  | Some d => jsstring_eqb d MODERATOR
  | None => false
  end.

(** [this.config.minletters && letters.length < this.config.minletters] *)
Definition tooShort (letters : list jsstring) : bool :=
  match config !! MINLETTERS with
  | Some m => truthy (Some m) && js_lt (numZ (Z.of_nat (length letters))) (ToNumber m)
  | None => false
  end.

Definition pushComplete (r : CompleteResponse) (st : QueryState) : QueryState :=
  {| complete := complete st ++ [r];
     incomplete := incomplete st;
     removals := removals st |}.

Definition pushIncomplete (r : IncompleteResponse) (st : QueryState) : QueryState :=
  {| complete := complete st;
     incomplete := incomplete st ++ [r];
     removals := removals st |}.

(** One turn of the loop over [comment.replies()]: the accumulator holds
    [hasChildren], the duplicate handler and the query state. *)
Definition visitReply (collect : Comment -> QueryState -> bool * QueryState)
    (comment : Comment)
    (acc : bool * (gmap jsstring Comment * QueryState)) (reply : Comment)
    : bool * (gmap jsstring Comment * QueryState) :=
  let '(hasChildren, (dup, st)) := acc in
  if jsstring_eqb (comment_author reply) (comment_author comment)
  then (hasChildren, (dup, remove reply self_reply st))
  else
    let (found, st1) := collect reply st in
    (hasChildren || found, handle reply (dup, st1)).

Fixpoint collectResponses (comment : Comment) (letters : list jsstring)
    (st : QueryState) {struct comment} : bool * QueryState :=
  match OuijaComment_type comment with
  | Invalid => (false, remove comment invalid st)
  | Goodbye =>
      if tooShort letters then (false, st)
      else (true, pushComplete {| letters := letters; goodbye := comment |} st)
  | Letter =>
      let letters := letters ++ [get_body comment] in
      let '(hasChildren, (_, st1)) :=
        fold_left
          (visitReply (fun reply => collectResponses reply letters) comment)
          (match comment with
           | MkComment _ _ _ _ _ _ _ _ replies => replies
           end)
          (false, (∅, st)) in
      (true,
       if hasChildren then st1
       else pushIncomplete {| partial_letters := letters; lastComment := comment |} st1)
  end.

(** One turn of the loop of [run] over [this.comments()]. *)
Definition visitComment (acc : gmap jsstring Comment * QueryState)
    (comment : Comment) : gmap jsstring Comment * QueryState :=
  let (dup, st) := acc in
  match OuijaComment_type comment with
  | Invalid =>
      (dup, if negb isMeta && negb isModPost then remove comment invalid st else st)
  | _ => handle comment (dup, snd (collectResponses comment [] st))
  end.

(** The state when the loop of [run] ends. *)
Definition collectAll : QueryState :=
  snd (fold_left visitComment (post_comments post) (∅, emptyState)).

Definition getTopCompletedResponse (st : QueryState) : option CompleteResponse :=
  fold_left
    (fun top response =>
       match top with
       | None => Some response
       | Some t =>
           if comment_score (goodbye t) <? comment_score (goodbye response)
           then Some response else top
       end)
    (complete st) None.

(** [this.config.minscore || COMMENT_SCORE_THRESHOLD] *)
Definition threshold : option jsstring :=
  if truthy (config !! MINSCORE) then config !! MINSCORE
  else COMMENT_SCORE_THRESHOLD.

(** The number a comparison reads in [threshold]; undefined reads as NaN. *)
Definition thresholdNumber : number :=
  match threshold with
  | Some s => ToNumber s
  | None => NaN
  end.

(** [now] is the clock, in milliseconds; [moment.unix] reads seconds. *)
Definition hasTimeLeft (now : Z) : bool :=
  if truthy (config !! TIME) then
    match config !! TIME with
    | Some t =>
        match duration (PT ++ toUpperCase t) with
        | Some d => now <? post_created_utc post * 1000 + d
        | None => false
        end
    | None => false
    end
  else false.

Definition getResponse (now : Z) (st : QueryState) : option CompleteResponse :=
  if hasTimeLeft now then None
  else
    match getTopCompletedResponse st with
    | Some topResponse =>
        if js_ge (numZ (comment_score (goodbye topResponse))) thresholdNumber
        then Some topResponse
        else None
    | None => None
    end.

Definition run (now : Z) : option CompleteResponse * OuijaQuery :=
  let st := collectAll in
  let response := getResponse now st in
  (response,
   {| query_post := post;
      responses := st;
      answered := match response with Some _ => true | None => false end |}).

End Query.

(** *** The summary page *)

Definition join (l : list jsstring) : jsstring := List.concat l.

Definition orElse (a b : jsstring) : jsstring :=
  match a with
  | [] => b
  | _ => a
  end.

Definition createPendingWikiMarkdown (query : OuijaQuery) : jsstring :=
  fold_left
    (fun markdown pending =>
       let answer := orElse (join (letters pending)) (js "[blank]") in
       let url := post_url (query_post query) ++ comment_id (goodbye pending)
                  ++ js "?context=999" in
       let score := comment_score (goodbye pending) in
       markdown ++ js "[" ++ answer ++ js "](" ++ url ++ js ") | "
                ++ numberToString score ++ EOL)
    (complete (responses query))
    (js "#### Pending" ++ EOL ++ js "Letters | Score" ++ EOL
     ++ js "--------|------" ++ EOL).

Definition createIncompleteWikiMarkdown (query : OuijaQuery) : jsstring :=
  fold_left
    (fun markdown sequence =>
       let answer := join (partial_letters sequence) in
       let url := post_url (query_post query) ++ comment_id (lastComment sequence)
                  ++ js "?context=999" in
       markdown ++ js "[" ++ answer ++ js "](" ++ url ++ js ") |" ++ EOL)
    (incomplete (responses query))
    (js "#### Incomplete" ++ EOL ++ js "Letters |" ++ EOL
     ++ js "--------|" ++ EOL).

(** What one turn of the loop of [processPending] appends for a query
    that is not answered. *)
Definition summaryEntry (query : OuijaQuery) : jsstring :=
  js "### [" ++ post_title (query_post query) ++ js "]("
    ++ post_url (query_post query) ++ js ")" ++ EOL
    ++ (match complete (responses query) with
        | [] => []
        | _ :: _ => createPendingWikiMarkdown query
        end)
    ++ (match incomplete (responses query) with
        | [] => []
        | _ :: _ => createIncompleteWikiMarkdown query
        end).

(** The text [processPending] hands to [wiki.edit]. *)
Definition processPending (queries : list OuijaQuery) : jsstring :=
  fold_left
    (fun text query => if answered query then text else text ++ summaryEntry query)
    (rev queries) [].

End Engine.

(** ** A run-time library for the concrete runs

    Each function agrees with the JavaScript one on the strings the runs
    below hand it: ASCII text and surrogates for [toUpperCase], unsigned
    decimal integers for the conversion to a number, ["PT2H"] for
    [moment.duration]. *)

Module Sample.

Definition toUpperCase (s : jsstring) : jsstring :=
  List.map (fun u => if inRange 97 122 u then u - 32 else u) s.

Fixpoint digitsValue (acc : Z) (s : jsstring) : option Z :=
  match s with
  | [] => Some acc
  | u :: t => if inRange 48 57 u then digitsValue (10 * acc + (u - 48)) t else None
  end.

Definition ToNumber (s : jsstring) : number :=
  match s with
  | [] => NaN
  | _ :: _ =>
      match digitsValue 0 s with
      | Some z => numZ z
      | None => NaN
      end
  end.

Definition duration (s : jsstring) : option Z :=
  if jsstring_eqb s (js "PT2H") then Some 7200000 else None.

Definition EOL : jsstring := [10].

Definition comment (id : string) (body : jsstring) (author : string)
    (created score : Z) (replies : list Comment) : Comment :=
  {| comment_id := js id; comment_body := body; comment_author := js author;
     comment_created_utc := created; comment_created := created;
     comment_score := score; comment_banned_by := None;
     comment_removed := false; comment_replies := replies |}.

Definition post (title selftext : string) (comments : list Comment) : Post :=
  {| post_title := js title; post_selftext := js selftext;
     post_url := js "https://redd.it/q1/"; post_created_utc := 1000;
     post_distinguished := None; post_comments := comments |}.

(** Two spellings, Y and N, closed by terminators scored 5 and 9. *)
Definition g5 : Comment := comment "g5" (js "Goodbye") "bob" 20 5 [].
Definition g9 : Comment := comment "g9" (js "GOODBYE.") "dan" 40 9 [].
Definition r5 : CompleteResponse := {| letters := [js "Y"]; goodbye := g5 |}.
Definition r9 : CompleteResponse := {| letters := [js "N"]; goodbye := g9 |}.
Definition twoChains : list Comment :=
  [comment "c1" (js "y") "alice" 10 3 [g5]; comment "c2" (js "N") "carol" 30 2 [g9]].
Definition twoAnswers : Post := post "Yes or no?" "" twoChains.
(** The same submission asking for a wait of two hours. *)
Definition waiting : Post := post "Yes or no?" "time: 2h" twoChains.
Definition threeLetters : Post := post "Yes or no?" "minletters: 3" twoChains.

(** A meta submission: a top-level K answered by a sentence, which has a
    reply of its own, and a top-level sentence. *)
Definition n1 : Comment :=
  comment "n1" (js "what do you mean?") "bob" 20 1 [comment "n2" (js "X") "dan" 30 1 []].
Definition metaPost : Post :=
  post "[Meta] New rules" ""
    [comment "t1" (js "K") "alice" 10 1 [n1];
     comment "t2" (js "Please read the sidebar") "carol" 15 1 []].


(** Siblings without replies: two that normalize to E, two whose
    normalized body is empty. *)
Definition early : Comment := comment "s1" (js "E") "bob" 10 1 [].
Definition late : Comment := comment "s2" (js "e") "dan" 20 1 [].
Definition bangs : Comment := comment "s3" (js "!!") "bob" 10 1 [].
Definition marks : Comment := comment "s4" (js "??") "dan" 20 1 [].

Definition withdrawn : Comment := comment "d1" DELETED "[deleted]" 10 1 [g5].

Definition run (threshold : string) : Post -> Z -> option CompleteResponse * OuijaQuery :=
  run toUpperCase ToNumber duration (Some (js threshold)).

End Sample.

(** ** Submissions, flair and notification

    What the functions around [OuijaQuery] read of a submission besides
    the fields of [Post], and the calls they make on the platform. *)

Record Submission : Type :=
  { submission_post : Post;
    link_flair_text : option jsstring;
    post_author : jsstring;
    user_reports : list (jsstring * Z) }.   (* [reason, count] pairs *)

Inductive Effect : Type :=
  | assign_flair (text css_class : jsstring)
  | compose_message (to subject text from_subreddit : jsstring).

Definition SUBREDDIT_NAME : jsstring := Eval cbv in js "AskOuija".
Definition OUIJA_RESULT_CLASS : jsstring := Eval cbv in js "ouija-result".
Definition UNANSWERED : jsstring := Eval cbv in js "unanswered".
Definition OUIJA_SAYS : jsstring := Eval cbv in js "Ouija says: ".
Definition ELLIPSIS : jsstring := Eval cbv in js "...".
Definition MISSING_FLAIR : jsstring := Eval cbv in js "Missing or Incorrect Flair".

(** [!post.link_flair_text || post.link_flair_text === 'unanswered'] *)
Definition isUnanswered (post : Submission) : bool :=
  negb (truthy (link_flair_text post))
  || match link_flair_text post with
     | Some t => jsstring_eqb t UNANSWERED
     | None => false
     end.

Definition reportedIncorrectFlair (post : Submission) : bool :=
  existsb (fun report => jsstring_eqb (fst report) MISSING_FLAIR) (user_reports post).

(** The label [updatePostFlair] computes: [text.length] and [substr] count
    code units. *)
Definition flairText (response : CompleteResponse) : jsstring :=
  let text := OUIJA_SAYS ++ List.concat (letters response) in
  if (64 <? length text)%nat then firstn 61 text ++ ELLIPSIS else text.

Section Orchestrator.

Variable toUpperCase : jsstring -> jsstring.
Variable ToNumber : jsstring -> number.
Variable duration : jsstring -> option Z.
Variable EOL : jsstring.
Variable COMMENT_SCORE_THRESHOLD : option jsstring.

Definition notifyUser (post : Submission) (response : CompleteResponse) : list Effect :=
  let url := post_url (submission_post post) ++ comment_id (goodbye response)
             ++ js "?context=999" in
  let answer := join (letters response) in
  let text := js "**You asked:** " ++ post_title (submission_post post) ++ EOL
              ++ EOL
              ++ js "**Ouija says:** [" ++ answer ++ js "](" ++ url ++ js ")" in
  [compose_message (post_author post) (js "THE OUIJA HAS SPOKEN") text SUBREDDIT_NAME].

(** [post.link_flair_text == text]: a flair that is null equals no string. *)
Definition updatePostFlair (post : Submission) (response : CompleteResponse)
    : list Effect :=
  let text := flairText response in
  if match link_flair_text post with
     | Some t => jsstring_eqb t text
     | None => false
     end
  then []
  else assign_flair text OUIJA_RESULT_CLASS :: notifyUser post response.

(** [runQuery]: the query it returns and the calls it makes after [run]. *)
Definition runQuery (post : Submission) (now : Z) : OuijaQuery * list Effect :=
  let (response, query) :=
    run toUpperCase ToNumber duration COMMENT_SCORE_THRESHOLD (submission_post post) now in
  (query,
   match response with
   | Some r => updatePostFlair post r
   | None =>
       if match link_flair_text post with
          | Some t => jsstring_eqb t UNANSWERED
          | None => false
          end
       then []
       else [assign_flair UNANSWERED UNANSWERED]
   end).

End Orchestrator.

(** * Notions used to state the properties *)

Definition terminatorScore (r : CompleteResponse) : Z := comment_score (goodbye r).

(** [r] is the first response of [l] whose score no other exceeds: the
    responses before it score strictly less, those after it at most as
    much. *)
Definition stableMax (l : list CompleteResponse) (r : CompleteResponse) : Prop :=
  exists l1 l2,
    l = l1 ++ r :: l2
    /\ Forall (fun x => terminatorScore x < terminatorScore r) l1
    /\ Forall (fun x => terminatorScore x <= terminatorScore r) l2.

(** One handler fed a sibling group in order. *)
Definition handleAll (toUpperCase : jsstring -> jsstring) (siblings : list Comment)
    (h : gmap jsstring Comment * QueryState) : gmap jsstring Comment * QueryState :=
  fold_left (fun acc c => handle toUpperCase c acc) siblings h.

(** Every entry is filed under its own key and comes from [l]. *)
Definition filed (toUpperCase : jsstring -> jsstring) (l : list Comment)
    (m : gmap jsstring Comment) : Prop :=
  forall k c, m !! k = Some c -> get_body toUpperCase c = k /\ In c l.

(** Induction on a comment tree: a property holds of every comment when it
    holds of a comment whose replies all have it. *)
Fixpoint Comment_tree_ind (P : Comment -> Prop)
    (step : forall c, Forall P (comment_replies c) -> P c) (c : Comment) : P c :=
  step c
    (match c as c0 return Forall P (comment_replies c0) with
     | MkComment _ _ _ _ _ _ _ _ replies =>
         (fix all (l : list Comment) : Forall P l :=
            match l with
            | [] => @List.Forall_nil _ P
            | r :: l' => @List.Forall_cons _ P r l' (Comment_tree_ind P step r) (all l')
            end) replies
     end).

(** From [st] to [st'] the lists have only grown, and every sequence that
    was added starts with [prefix]. *)
Definition extends (prefix : list jsstring) (st st' : QueryState) : Prop :=
  exists newComplete newIncomplete newRemovals,
    complete st' = complete st ++ newComplete
    /\ incomplete st' = incomplete st ++ newIncomplete
    /\ removals st' = removals st ++ newRemovals
    /\ Forall (fun r => exists rest, letters r = prefix ++ rest) newComplete
    /\ Forall (fun r => exists rest, partial_letters r = prefix ++ rest) newIncomplete.

(** What a query contributes to the summary page. *)
Definition listed (EOL : jsstring) (query : OuijaQuery) : jsstring :=
  if answered query then [] else summaryEntry EOL query.


(** [/^goodbye/i.test(s)] *)
Definition goodbyeIgnoreCase (s : jsstring) : bool :=
  startsWithIgnoreCase (js "goodbye") s.

Definition noLowerCase (s : jsstring) : Prop :=
  Forall (fun u => inRange 97 122 u = false) s.

(** The state [st] with what [d] holds appended. *)
Definition appendState (st d : QueryState) : QueryState :=
  {| complete := complete st ++ complete d;
     incomplete := incomplete st ++ incomplete d;
     removals := removals st ++ removals d |}.

(** The comment [c] with [replies] for replies. *)
Definition withReplies (c : Comment) (replies : list Comment) : Comment :=
  {| comment_id := comment_id c; comment_body := comment_body c;
     comment_author := comment_author c;
     comment_created_utc := comment_created_utc c;
     comment_created := comment_created c; comment_score := comment_score c;
     comment_banned_by := comment_banned_by c;
     comment_removed := comment_removed c; comment_replies := replies |}.

(** The submission [p] with [comments] for top-level comments. *)
Definition withComments (p : Post) (comments : list Comment) : Post :=
  {| post_title := post_title p; post_selftext := post_selftext p;
     post_url := post_url p; post_created_utc := post_created_utc p;
     post_distinguished := post_distinguished p; post_comments := comments |}.

(** A thread without branches: Letters, each with one reply by another
    author, down to a Goodbye.  [spells c l g]: below and including [c] the
    letters are [l] and the Goodbye is [g]. *)
Inductive spells (toUpperCase : jsstring -> jsstring)
    : Comment -> list jsstring -> Comment -> Prop :=
  | spells_goodbye (g : Comment) :
      OuijaComment_type toUpperCase g = Goodbye -> spells toUpperCase g [] g
  | spells_letter (c r g : Comment) (l : list jsstring) :
      OuijaComment_type toUpperCase c = Letter ->
      comment_replies c = [r] ->
      comment_author r <> comment_author c ->
      spells toUpperCase r l g ->
      spells toUpperCase c (get_body toUpperCase c :: l) g.

(** The flair of a submission once the calls [effects] are through. *)
Definition flairAfter (post : Submission) (effects : list Effect) : Submission :=
  {| submission_post := submission_post post;
     link_flair_text :=
       fold_left
         (fun flair e =>
            match e with
            | assign_flair text _ => Some text
            | compose_message _ _ _ _ => flair
            end)
         effects (link_flair_text post);
     post_author := post_author post;
     user_reports := user_reports post |}.

Definition oneSymbol (s : jsstring) : Prop := countSymbols s = 1%nat.

(** Every key is a run of word characters other than [__proto__], every
    value a run of word characters; neither is empty. *)
Definition wordEntries (config : gmap jsstring jsstring) : Prop :=
  map_Forall
    (fun k v => k <> [] /\ v <> [] /\ k <> PROTO
                /\ Forall (fun u => isWord u = true) k
                /\ Forall (fun u => isWord u = true) v)
    config.

(** A removal the handler may make in the group [l]. *)
Definition duplicateOf (l : list Comment) (e : jsstring * Reason) : Prop :=
  exists c, In c l /\ e = (comment_id c, duplicate)
            /\ hasReplies c = false /\ get_removed c = false.

(** What the handler holds under [k] after the group [l], when the
    siblings of key [k] have no replies. *)
Definition earliestUnder (toUpperCase : jsstring -> jsstring) (k : jsstring)
    (l : list Comment) (m : gmap jsstring Comment) : Prop :=
  match m !! k with
  | None => forall c, In c l -> get_body toUpperCase c <> k
  | Some w =>
      In w l /\ get_body toUpperCase w = k
      /\ forall c, In c l -> get_body toUpperCase c = k ->
                   get_created w <= get_created c
  end.

(** What the sequences of a state spell: letters, comment and score of
    each complete one, letters and comment of each incomplete one. *)
Definition spelled (st : QueryState)
    : list (list jsstring * jsstring * Z) * list (list jsstring * jsstring) :=
  (List.map (fun r => (letters r, comment_id (goodbye r), comment_score (goodbye r)))
     (complete st),
   List.map (fun r => (partial_letters r, comment_id (lastComment r))) (incomplete st)).

(** Two states with the same sequences. *)
Definition sameSequences (st st' : QueryState) : Prop := spelled st = spelled st'.

(** A complete sequence recorded below the letters [prefix]: it continues
    them with one-symbol letters, ends in a Goodbye and is not too short. *)
Definition goodComplete (toUpperCase : jsstring -> jsstring)
    (ToNumber : jsstring -> number) (post : Post)
    (prefix : list jsstring) (r : CompleteResponse) : Prop :=
  (exists rest, letters r = prefix ++ rest /\ Forall oneSymbol rest)
  /\ OuijaComment_type toUpperCase (goodbye r) = Goodbye
  /\ tooShort ToNumber post (letters r) = false.

(** An incomplete sequence recorded below the letters [prefix]: it
    continues them with one-symbol letters, the last of which is the body
    of its last comment, a Letter. *)
Definition goodIncomplete (toUpperCase : jsstring -> jsstring)
    (prefix : list jsstring) (r : IncompleteResponse) : Prop :=
  (exists rest,
      partial_letters r = prefix ++ rest ++ [get_body toUpperCase (lastComment r)]
      /\ Forall oneSymbol rest)
  /\ oneSymbol (get_body toUpperCase (lastComment r))
  /\ OuijaComment_type toUpperCase (lastComment r) = Letter.

(** The sequences of [st] are good below the letters [p]. *)
Definition goodState (toUpperCase : jsstring -> jsstring)
    (ToNumber : jsstring -> number) (post : Post)
    (p : list jsstring) (st : QueryState) : Prop :=
  Forall (goodComplete toUpperCase ToNumber post p) (complete st)
  /\ Forall (goodIncomplete toUpperCase p) (incomplete st).

(** ** Sample data for the further properties *)

Module Cases.

(** Siblings that normalize to E and have a reply each, and a childless
    one created between them. *)
Definition branchA : Comment :=
  Sample.comment "k1" (js "E") "bob" 10 1 [Sample.comment "k2" (js "X") "dan" 11 1 []].
Definition branchB : Comment :=
  Sample.comment "k3" (js "e") "eve" 30 1 [Sample.comment "k4" (js "Y") "dan" 31 1 []].
Definition leaf : Comment := Sample.comment "k5" (js " e") "joe" 20 1 [].

(** A thread without branches that spells AB. *)
Definition threadG : Comment := Sample.comment "h3" (js "Goodbye") "carol" 30 12 [].
Definition threadB : Comment := Sample.comment "h2" (js "b") "bob" 20 1 [threadG].
Definition threadA : Comment := Sample.comment "h1" (js "A") "alice" 10 1 [threadB].

(** The incomplete sequence of [Sample.metaPost]. *)
Definition openK : IncompleteResponse :=
  {| partial_letters := [js "K"];
     lastComment := Sample.comment "t1" (js "K") "alice" 10 1 [Sample.n1] |}.

(** The submission of [Sample.twoAnswers] configuring a minimum score. *)
Definition minscore8 : Post := Sample.post "Yes or no?" "minscore: 8" Sample.twoChains.
Definition minscore10 : Post := Sample.post "Yes or no?" "minscore: 10" Sample.twoChains.

(** A keycap: the digit one, a variation selector and the enclosing
    keycap, three code points. *)
Definition keycap : Comment := Sample.comment "e3" [49; 65039; 8419] "erin" 52 1 [].

(** A Letter answered by the two siblings whose normalized body is empty. *)
Definition bangParent : Comment :=
  Sample.comment "p1" (js "Q") "amy" 5 1 [Sample.bangs; Sample.marks].

(** A lone backslash, which normalizes to the empty string, and a later
    sibling of two backslashes, which normalizes to one backslash. *)
Definition slash : Comment := Sample.comment "s5" [92] "bob" 10 1 [].
Definition slashes : Comment := Sample.comment "s6" [92; 92] "dan" 20 1 [].
Definition slashParent : Comment :=
  Sample.comment "p2" (js "Q") "amy" 5 1 [slash; slashes].

End Cases.

(** * Properties *)

(** ** Symbols and the classifier *)

Lemma countSymbols_cons_bmp (u : Z) (t : jsstring) :
  isHighSurrogate u = false -> countSymbols (u :: t) = S (countSymbols t).
Proof.
  intros Hu. destruct t as [|v t']; simpl; [reflexivity|].
  now rewrite Hu.
Qed.



(** Case analysis on every integer comparison in sight. *)
Ltac zbool :=
  repeat match goal with
    | H : context [?a =? ?b] |- _ => destruct (Z.eqb_spec a b)
    | H : context [?a <=? ?b] |- _ => destruct (Z.leb_spec a b)
    | |- context [?a =? ?b] => destruct (Z.eqb_spec a b)
    | |- context [?a <=? ?b] => destruct (Z.leb_spec a b)
    end;
  simpl in *; try reflexivity; try discriminate; try lia.

Lemma matchesIgnoreCase_ascii (p u : Z) :
  p < 128 -> matchesIgnoreCase p u = true -> isHighSurrogate u = false.
Proof. unfold matchesIgnoreCase, isHighSurrogate, inRange. intros Hp H. zbool. Qed.

Lemma startsWithIgnoreCase_count (p : jsstring) :
  Forall (fun a => a < 128) p ->
  forall s, startsWithIgnoreCase p s = true -> (length p <= countSymbols s)%nat.
Proof.
  induction 1 as [|a p Ha Hp IH]; intros s Hs; simpl; [lia|].
  destruct s as [|b s]; simpl in Hs; [discriminate|].
  apply andb_true_iff in Hs as [Hab Hs].
  rewrite (countSymbols_cons_bmp b s (matchesIgnoreCase_ascii a b Ha Hab)).
  specialize (IH s Hs). lia.
Qed.

Lemma matchesIgnoreCase_upper (a b : Z) :
  inRange 65 90 a = true -> inRange 97 122 b = false ->
  matchesIgnoreCase (a + 32) b = (a =? b).
Proof. unfold matchesIgnoreCase, inRange. intros Ha Hb. zbool. Qed.

(** On a string without lower-case letters, matching an upper-case pattern
    exactly and matching it whatever the case are the same test. *)
Lemma startsWithIgnoreCase_upper (p : jsstring) :
  Forall (fun a => inRange 65 90 a = true) p ->
  forall s, noLowerCase s ->
  startsWithIgnoreCase (List.map (fun a => a + 32) p) s = startsWith p s.
Proof.
  induction 1 as [|a p Ha Hp IH]; intros s Hs; [reflexivity|].
  destruct s as [|b s]; [reflexivity|]. simpl.
  inversion Hs as [|? ? Hb Hs']; subst.
  now rewrite (matchesIgnoreCase_upper a b Ha Hb), (IH s Hs').
Qed.

Lemma goodbyeIgnoreCase_upper (s : jsstring) :
  noLowerCase s -> goodbyeIgnoreCase s = goodbyeRegex_test s.
Proof.
  intros Hs. apply (startsWithIgnoreCase_upper GOODBYE); [|exact Hs].
  repeat constructor.
Qed.

Lemma goodbyeIgnoreCase_count (s : jsstring) :
  goodbyeIgnoreCase s = true -> (7 <= countSymbols s)%nat.
Proof.
  intros H. apply (startsWithIgnoreCase_count (js "goodbye")); [|exact H].
  repeat constructor.
Qed.

Section Classifier.

Variable toUpperCase : jsstring -> jsstring.

Lemma parseBody_noLowerCase (raw : jsstring) :
  (forall s, noLowerCase (toUpperCase s)) -> noLowerCase (parseBody toUpperCase raw).
Proof.
  intros Hup. unfold parseBody.
  destruct (jsstring_eqb raw DELETED); [repeat constructor|].
  match goal with |- context [jsstring_eqb ?b SHARP_S] =>
    destruct (jsstring_eqb b SHARP_S) eqn:E; [|apply Hup];
    apply bool_decide_eq_true in E; rewrite E end.
  repeat constructor.
Qed.

(** C3. Classification gives every comment one of the three types, in
    priority order: a banned comment is Invalid; otherwise a normalized
    body of exactly one symbol makes it Letter; otherwise a normalized
    body that starts with GOODBYE, whatever the case, makes it Goodbye
    (Terminator); otherwise it is Invalid.  The conditions of Letter and
    of Goodbye exclude each other.  [toUpperCase] yields no lower-case
    ASCII letter, which is why the case-sensitive test of the program is
    a test whatever the case. *)
Theorem classification_priority
    (Hupper : forall s, noLowerCase (toUpperCase s)) (c : Comment) :
  let body := OuijaComment_body toUpperCase c in
  let type := OuijaComment_type toUpperCase c in
  goodbyeRegex_test body = goodbyeIgnoreCase body
  /\ (truthy (comment_banned_by c) = true -> type = Invalid)
  /\ (truthy (comment_banned_by c) = false ->
      (countSymbols body = 1%nat -> type = Letter)
      /\ (countSymbols body <> 1%nat -> goodbyeIgnoreCase body = true -> type = Goodbye)
      /\ (countSymbols body <> 1%nat -> goodbyeIgnoreCase body = false -> type = Invalid))
  /\ ~ (countSymbols body = 1%nat /\ goodbyeIgnoreCase body = true)
  /\ (type = Letter <-> truthy (comment_banned_by c) = false /\ countSymbols body = 1%nat)
  /\ (type = Goodbye <->
      truthy (comment_banned_by c) = false /\ countSymbols body <> 1%nat
      /\ goodbyeIgnoreCase body = true).
Proof.
  intros body type.
  assert (Hci : goodbyeIgnoreCase body = goodbyeRegex_test body).
  { apply goodbyeIgnoreCase_upper, parseBody_noLowerCase, Hupper. }
  assert (Hex : ~ (countSymbols body = 1%nat /\ goodbyeIgnoreCase body = true)).
  { intros [H1 H7]. apply goodbyeIgnoreCase_count in H7. lia. }
  split; [now rewrite Hci|].
  subst type. unfold OuijaComment_type. fold body. rewrite <- Hci.
  destruct (truthy (comment_banned_by c));
    [|destruct (Nat.eqb_spec (countSymbols body) 1) as [H1|H1];
      [|destruct (goodbyeIgnoreCase body) eqn:Hg]];
    repeat split; intros; try easy; intuition congruence.
Qed.

End Classifier.

(** ** The normalizer *)

(** A disjunction of comparisons is false. *)
Ltac zfalse :=
  repeat match goal with
    | |- (_ || _) = false => apply orb_false_iff; split
    end;
  try (apply Z.eqb_neq; lia);
  try (apply andb_false_iff; (left; apply Z.leb_gt; lia) || (right; apply Z.leb_gt; lia)).

Lemma inRange_true (lo hi u : Z) : inRange lo hi u = true <-> lo <= u <= hi.
Proof. unfold inRange. rewrite andb_true_iff, !Z.leb_le. tauto. Qed.


Lemma isWord_facts (u : Z) :
  isWord u = true -> u <> BACKSLASH /\ isSpace u = false.
Proof.
  unfold isWord, BACKSLASH. rewrite !orb_true_iff, !inRange_true, Z.eqb_eq.
  intros H. split; [lia|]. unfold isSpace, inRange. zfalse.
Qed.











Section Normalizer.

Variable toUpperCase : jsstring -> jsstring.






End Normalizer.

(** ** The configuration *)

Lemma parseConfigFrom_values (n : nat) :
  forall (s : jsstring) (config : gmap jsstring jsstring),
  map_Forall (fun _ v => v <> []) config ->
  map_Forall (fun _ v => v <> []) (parseConfigFrom n s config).
Proof.
  induction n as [|n IH]; intros s config Hc; cbn [parseConfigFrom]; [exact Hc|].
  repeat case_match; try exact Hc; try (apply IH; exact Hc).
  apply IH, map_Forall_insert_2; [discriminate | exact Hc].
Qed.

(** A value [parseConfig] stores matched [\w+]: it is not empty, hence
    truthy. *)
Lemma parseConfig_truthy (input k v : jsstring) :
  parseConfig input !! k = Some v -> truthy (Some v) = true.
Proof.
  intros H.
  assert (Hv : v <> []).
  { apply (parseConfigFrom_values (length input) input ∅ (map_Forall_empty _) k v H). }
  destruct v; [contradiction | reflexivity].
Qed.

(** ** The resolution policy *)

Lemma stableMax_unique (l : list CompleteResponse) (r r' : CompleteResponse) :
  stableMax l r -> stableMax l r' -> r = r'.
Proof.
  intros (l1 & l2 & -> & H1 & H2) (l1' & l2' & E & H1' & H2').
  revert l1' E H1'. induction l1 as [|a l1 IH]; intros [|a' l1'] E H1'; simpl in E.
  - congruence.
  - injection E as <- ->. inversion H1'; subst.
    rewrite List.Forall_forall in H2.
    specialize (H2 r' ltac:(apply in_elt)). lia.
  - injection E as -> <-. inversion H1; subst.
    rewrite List.Forall_forall in H2'.
    specialize (H2' r ltac:(apply in_elt)). lia.
  - injection E as -> E. inversion H1; inversion H1'; subst. now apply (IH ltac:(assumption) l1').
Qed.

Lemma getTopCompletedResponse_spec (st : QueryState) :
  match getTopCompletedResponse st with
  | None => complete st = []
  | Some r => stableMax (complete st) r
  end.
Proof.
  unfold getTopCompletedResponse.
  induction (complete st) as [|x l IH] using rev_ind; [reflexivity|].
  rewrite fold_left_app. cbn [fold_left].
  destruct (fold_left _ l None) as [t|].
  - destruct IH as (l1 & l2 & -> & H1 & H2).
    destruct (Z.ltb_spec (comment_score (goodbye t)) (comment_score (goodbye x))) as [Hlt|Hge].
    + exists (l1 ++ t :: l2), []. repeat split; [|constructor].
      apply Forall_app. split; [|constructor].
      * eapply Forall_impl; [exact H1|]. unfold terminatorScore. simpl. intros; lia.
      * exact Hlt.
      * eapply Forall_impl; [exact H2|]. unfold terminatorScore. simpl. intros; lia.
    + exists l1, (l2 ++ [x]). repeat split.
      * now rewrite <- app_assoc.
      * exact H1.
      * apply Forall_app. split; [exact H2|]. constructor; [exact Hge | constructor].
  - subst l. exists [], []. repeat split; constructor.
Qed.

Lemma getTopCompletedResponse_iff (st : QueryState) (r : CompleteResponse) :
  getTopCompletedResponse st = Some r <-> stableMax (complete st) r.
Proof.
  pose proof (getTopCompletedResponse_spec st) as H.
  destruct (getTopCompletedResponse st) as [t|].
  - split; [intros [= <-]; exact H|]. intros Hr. f_equal.
    exact (stableMax_unique _ _ _ H Hr).
  - split; [discriminate|]. intros (l1 & l2 & E & _). rewrite H in E.
    now destruct l1.
Qed.

Lemma js_ge_numZ (a b : Z) : js_ge (numZ a) (numZ b) = true <-> b <= a.
Proof.
  unfold js_ge, js_lt, numZ, Qlt_bool. rewrite negb_involutive.
  rewrite QArith_base.Qle_bool_iff, <- QArith_base.Zle_Qle. reflexivity.
Qed.

Section ResolutionPolicy.

Variable toUpperCase : jsstring -> jsstring.
Variable ToNumber : jsstring -> number.
Variable duration : jsstring -> option Z.
Variable COMMENT_SCORE_THRESHOLD : option jsstring.
Variable post : Post.

Local Abbreviation getResponse' :=
  (getResponse toUpperCase ToNumber duration COMMENT_SCORE_THRESHOLD post).
Local Abbreviation hasTimeLeft' := (hasTimeLeft toUpperCase duration post).
Local Abbreviation threshold' := (threshold COMMENT_SCORE_THRESHOLD post).
Local Abbreviation thresholdNumber' :=
  (thresholdNumber ToNumber COMMENT_SCORE_THRESHOLD post).

Lemma threshold_spec :
  threshold' = match config post !! MINSCORE with
              | Some s => Some s
              | None => COMMENT_SCORE_THRESHOLD
              end.
Proof.
  unfold threshold.
  destruct (config post !! MINSCORE) as [s|] eqn:E; [|reflexivity].
  now rewrite (parseConfig_truthy _ _ _ E).
Qed.

Lemma getResponse_not_pending (now : Z) (st : QueryState) (r : CompleteResponse) :
  hasTimeLeft' now = false ->
  (getResponse' now st = Some r <->
   stableMax (complete st) r
   /\ js_ge (numZ (terminatorScore r)) thresholdNumber' = true).
Proof.
  intros Hp. unfold getResponse. rewrite Hp.
  rewrite <- getTopCompletedResponse_iff.
  destruct (getTopCompletedResponse st) as [t|]; [|split; [discriminate | intros [[=] _]]].
  unfold terminatorScore.
  destruct (js_ge (numZ (comment_score (goodbye t))) thresholdNumber') eqn:E.
  - split; [intros [= <-]; split; [reflexivity | exact E] | intros [H _]; exact H].
  - split; [discriminate | intros [[= <-] H]; congruence].
Qed.

(** C1. When the evaluation is not pending, the response selected is the
    complete sequence whose terminator has the highest score, the first
    such in traversal order; it is returned as the winner exactly when
    its score is at least the threshold, which is the minimum score of
    the configuration when there is one and the global default
    otherwise; nothing is returned in any other case.  With two complete
    sequences scored 5 and 9, a threshold of 8 makes the one scored 9
    win and a threshold of 10 leaves no winner. *)
Theorem winner_is_stable_max_over_threshold (now : Z) (st : QueryState)
    (Hready : hasTimeLeft' now = false) :
  threshold' = match config post !! MINSCORE with
              | Some s => Some s
              | None => COMMENT_SCORE_THRESHOLD
              end
  /\ (forall r, getTopCompletedResponse st = Some r <-> stableMax (complete st) r)
  /\ (forall r, getResponse' now st = Some r <->
                stableMax (complete st) r
                /\ js_ge (numZ (terminatorScore r)) thresholdNumber' = true)
  /\ (forall r t, thresholdNumber' = numZ t -> stableMax (complete st) r ->
                  (getResponse' now st = Some r <-> t <= terminatorScore r)
                  /\ (getResponse' now st = None <-> terminatorScore r < t))
  /\ (complete st = [] -> getResponse' now st = None)
  /\ (forall r5 r9, complete st = [r5; r9] ->
                    terminatorScore r5 = 5 -> terminatorScore r9 = 9 ->
                    (thresholdNumber' = numZ 8 -> getResponse' now st = Some r9)
                    /\ (thresholdNumber' = numZ 10 -> getResponse' now st = None))
  /\ thresholdNumber' = match threshold' with
                        | Some s => ToNumber s
                        | None => NaN
                        end
  /\ (forall s, config post !! MINSCORE = Some s -> thresholdNumber' = ToNumber s)
  /\ (config post !! MINSCORE = None ->
      thresholdNumber' = match COMMENT_SCORE_THRESHOLD with
                         | Some s => ToNumber s
                         | None => NaN
                         end)
  /\ (forall s t r,
        config post !! MINSCORE = Some s -> ToNumber s = numZ t ->
        stableMax (complete st) r ->
        (getResponse' now st = Some r <-> t <= terminatorScore r)
        /\ (getResponse' now st = None <-> terminatorScore r < t))
  /\ (forall s t r,
        config post !! MINSCORE = None -> COMMENT_SCORE_THRESHOLD = Some s ->
        ToNumber s = numZ t -> stableMax (complete st) r ->
        (getResponse' now st = Some r <-> t <= terminatorScore r)
        /\ (getResponse' now st = None <-> terminatorScore r < t))
  /\ (forall r5 r9 s,
        complete st = [r5; r9] ->
        terminatorScore r5 = 5 -> terminatorScore r9 = 9 ->
        config post !! MINSCORE = Some s
        \/ (config post !! MINSCORE = None /\ COMMENT_SCORE_THRESHOLD = Some s) ->
        (ToNumber s = numZ 8 -> getResponse' now st = Some r9)
        /\ (ToNumber s = numZ 10 -> getResponse' now st = None)).
Proof.
  assert (Hconfig : forall s, config post !! MINSCORE = Some s ->
                              thresholdNumber' = ToNumber s).
  { intros s Hs. unfold thresholdNumber. now rewrite threshold_spec, Hs. }
  assert (Hdefault : config post !! MINSCORE = None ->
                     thresholdNumber' = match COMMENT_SCORE_THRESHOLD with
                                        | Some s => ToNumber s
                                        | None => NaN
                                        end).
  { intros Hs. unfold thresholdNumber. now rewrite threshold_spec, Hs. }
  split; [apply threshold_spec|].
  split; [intros r; apply getTopCompletedResponse_iff|].
  split; [intros r; now apply getResponse_not_pending|].
  assert (Hnum : forall r t, thresholdNumber' = numZ t -> stableMax (complete st) r ->
                  (getResponse' now st = Some r <-> t <= terminatorScore r)
                  /\ (getResponse' now st = None <-> terminatorScore r < t)).
  { intros r t Ht Hr.
    assert (Hsome : getResponse' now st = Some r <-> t <= terminatorScore r).
    { rewrite (getResponse_not_pending now st r Hready), Ht, js_ge_numZ. tauto. }
    split; [exact Hsome|].
    destruct (getResponse' now st) as [w|] eqn:E.
    - assert (w = r) as ->.
      { apply (getResponse_not_pending now st w Hready) in E as [E _].
        exact (stableMax_unique _ _ _ E Hr). }
      split; [discriminate|]. intros Hlt.
      pose proof (proj1 Hsome eq_refl). lia.
    - split; [|reflexivity]. intros _.
      destruct (Z.lt_ge_cases (terminatorScore r) t) as [Hlt|Hge]; [exact Hlt|].
      apply Hsome in Hge. discriminate. }
  assert (Hmax : forall r5 r9, complete st = [r5; r9] ->
                   terminatorScore r5 = 5 -> terminatorScore r9 = 9 ->
                   stableMax (complete st) r9).
  { intros r5 r9 Hc H5 H9. exists [r5], []. rewrite Hc. repeat split.
    - constructor; [lia | constructor].
    - constructor. }
  split; [exact Hnum|]. split.
  { intros Hnil. unfold getResponse, getTopCompletedResponse.
    rewrite Hready, Hnil. reflexivity. }
  split.
  { intros r5 r9 Hc H5 H9.
    split; intros Ht; apply (Hnum r9 _ Ht (Hmax r5 r9 Hc H5 H9)); lia. }
  split; [reflexivity|].
  split; [exact Hconfig|]. split; [exact Hdefault|]. split.
  { intros s t r Hs Ht Hr. apply Hnum; [|exact Hr]. now rewrite (Hconfig s Hs). }
  split.
  { intros s t r Hs Hth Ht Hr. apply Hnum; [|exact Hr].
    now rewrite (Hdefault Hs), Hth. }
  intros r5 r9 s Hc H5 H9 Hs.
  assert (Hth : thresholdNumber' = ToNumber s).
  { destruct Hs as [Hs | [Hs Hth]]; [exact (Hconfig s Hs)|].
    now rewrite (Hdefault Hs), Hth. }
  split; intros Ht; apply (Hnum r9 _ (eq_trans Hth Ht) (Hmax r5 r9 Hc H5 H9)); lia.
Qed.

(** C2. If the configuration gives a maximum wait and the clock is
    strictly before the creation time of the submission plus that wait,
    the resolution returns no winner whatever the complete sequences and
    their scores; if the configuration gives no wait, the evaluation is
    never pending. *)
Theorem pending_returns_no_winner (now : Z) (st : QueryState) :
  (forall t d, config post !! TIME = Some t ->
               duration (PT ++ toUpperCase t) = Some d ->
               now < post_created_utc post * 1000 + d ->
               hasTimeLeft' now = true
               /\ getResponse' now st = None
               /\ fst (run toUpperCase ToNumber duration COMMENT_SCORE_THRESHOLD post now) = None)
  /\ (config post !! TIME = None -> hasTimeLeft' now = false).
Proof.
  split.
  - intros t d Ht Hd Hnow.
    assert (Hp : hasTimeLeft' now = true).
    { unfold hasTimeLeft.
      rewrite Ht, (parseConfig_truthy _ _ _ Ht), Hd. now apply Z.ltb_lt. }
    split; [exact Hp|].
    unfold run, getResponse. cbn [fst]. now rewrite Hp.
  - intros Ht. unfold hasTimeLeft. now rewrite Ht.
Qed.

End ResolutionPolicy.

(** ** The duplicate handler *)

Section Deduplicator.

Variable toUpperCase : jsstring -> jsstring.

Local Abbreviation key := (get_body toUpperCase).
Local Abbreviation handle' := (handle toUpperCase).
Local Abbreviation handleAll' := (handleAll toUpperCase).
Local Abbreviation filed' := (filed toUpperCase).

Lemma handleAll_app (l1 l2 : list Comment) (h : gmap jsstring Comment * QueryState) :
  handleAll' (l1 ++ l2) h = handleAll' l2 (handleAll' l1 h).
Proof. apply fold_left_app. Qed.

Lemma handle_filed (l : list Comment) (c : Comment)
    (m : gmap jsstring Comment) (st : QueryState) :
  filed' l m -> filed' (l ++ [c]) (fst (handle' c (m, st))).
Proof.
  intros Hm.
  assert (Hold : filed' (l ++ [c]) m).
  { intros k x Hx. destruct (Hm k x Hx) as [Hk Hin].
    split; [exact Hk | apply in_or_app; now left]. }
  assert (Hnew : filed' (l ++ [c]) (<[key c := c]> m)).
  { intros k x Hx. destruct (decide (key c = k)) as [<-|Hne].
    - rewrite lookup_insert_eq in Hx. injection Hx as <-.
      split; [reflexivity | apply in_or_app; right; now left].
    - rewrite lookup_insert_ne in Hx by exact Hne. exact (Hold k x Hx). }
  unfold handle. repeat case_match; assumption.
Qed.

Lemma handleAll_filed (l : list Comment) (st : QueryState) :
  filed' l (fst (handleAll' l (∅, st))).
Proof.
  induction l as [|c l IH] using rev_ind.
  - intros k c Hc. simpl in Hc. now rewrite lookup_empty in Hc.
  - rewrite handleAll_app. cbn [handleAll fold_left].
    fold (handleAll' l (∅, st)).
    destruct (handleAll' l (∅, st)) as [m st']. now apply handle_filed.
Qed.

Lemma handle_other (c : Comment) (m : gmap jsstring Comment) (st : QueryState)
    (k : jsstring) :
  key c <> k ->
  fst (handle' c (m, st)) !! k = m !! k
  /\ exists extra, removals (snd (handle' c (m, st))) = removals st ++ extra.
Proof.
  intros Hne. unfold handle, remove.
  repeat case_match; cbn [fst snd removals];
    rewrite ?lookup_insert_ne by exact Hne;
    (split; [reflexivity|]); eauto using app_nil_r.
  all: exists []; now rewrite app_nil_r.
Qed.

Lemma handleAll_others (l : list Comment) (k : jsstring) :
  Forall (fun c => key c <> k) l ->
  forall m st,
    fst (handleAll' l (m, st)) !! k = m !! k
    /\ exists extra, removals (snd (handleAll' l (m, st))) = removals st ++ extra.
Proof.
  induction 1 as [|c l Hc Hl IH]; intros m st; cbn [handleAll fold_left].
  - split; [reflexivity|]. exists []. now rewrite app_nil_r.
  - destruct (handle_other c m st k Hc) as [H1 [e1 H2]].
    destruct (handle' c (m, st)) as [m1 st1]. cbn [fst snd] in *.
    destruct (IH m1 st1) as [H3 [e2 H4]]. fold (handleAll' l (m1, st1)).
    split; [congruence|]. exists (e1 ++ e2). now rewrite H4, H2, app_assoc.
Qed.

Lemma handleAll_cons (c : Comment) (l : list Comment)
    (h : gmap jsstring Comment * QueryState) :
  handleAll' (c :: l) h = handleAll' l (handle' c h).
Proof. reflexivity. Qed.

Lemma handle_fresh (c : Comment) (m : gmap jsstring Comment) (st : QueryState) :
  m !! key c = None -> handle' c (m, st) = (<[key c := c]> m, st).
Proof. intros H. unfold handle. now rewrite H. Qed.

Lemma handle_later (old new : Comment) (m : gmap jsstring Comment) (st : QueryState) :
  m !! key new = Some old -> get_created old < get_created new ->
  hasReplies new = false ->
  handle' new (m, st) = (m, remove new duplicate st).
Proof.
  intros H Ht Hr. unfold handle.
  now rewrite H, Hr, (proj2 (Z.ltb_lt _ _) Ht).
Qed.

Lemma handle_earlier (old new : Comment) (m : gmap jsstring Comment) (st : QueryState) :
  m !! key new = Some old -> get_created new <= get_created old ->
  hasReplies old = false ->
  handle' new (m, st) = (<[key new := new]> m, remove old duplicate st).
Proof.
  intros H Ht Hr. unfold handle.
  now rewrite H, Hr, (proj2 (Z.ltb_ge _ _) Ht).
Qed.

(** The first of two childless siblings under one key stays, whichever
    of the two the handler meets first. *)
Lemma handle_pair (a b : Comment) (m : gmap jsstring Comment) (st : QueryState) :
  key a = key b -> get_created a < get_created b ->
  hasReplies a = false -> hasReplies b = false ->
  m !! key a = None ->
  handleAll' [a; b] (m, st) = (<[key a := a]> m, remove b duplicate st)
  /\ handleAll' [b; a] (m, st) = (<[key a := a]> m, remove b duplicate st).
Proof.
  intros Hk Ht Ha Hb Hm. rewrite !handleAll_cons. split.
  - rewrite (handle_fresh a m st Hm).
    rewrite (handle_later a b); [reflexivity | | exact Ht | exact Hb].
    rewrite <- Hk. apply lookup_insert_eq.
  - rewrite (handle_fresh b m st) by (now rewrite <- Hk).
    rewrite (handle_earlier b a); [| | lia | exact Hb].
    + rewrite <- Hk. now rewrite insert_insert_eq.
    + rewrite <- Hk. apply lookup_insert_eq.
Qed.

(** X27. Where the normalized body is not empty, it is the key the
    handler files a comment under.  After any sibling group, no two
    comments on file have the same non-empty normalized body; and of two
    siblings with the same non-empty normalized body, created at t1 < t2,
    neither with replies, no other sibling being read under that key, the
    one created at t1 is retained and [remove('duplicate')] is called on
    the one created at t2, in whichever order the two arrive and wherever
    among the other siblings. *)
Theorem deduplicator_keeps_earliest :
  (forall c, OuijaComment_body toUpperCase c <> [] ->
             key c = OuijaComment_body toUpperCase c)
  /\ (forall siblings st k1 k2 c1 c2,
        fst (handleAll' siblings (∅, st)) !! k1 = Some c1 ->
        fst (handleAll' siblings (∅, st)) !! k2 = Some c2 ->
        OuijaComment_body toUpperCase c1 = OuijaComment_body toUpperCase c2 ->
        OuijaComment_body toUpperCase c1 <> [] ->
        k1 = OuijaComment_body toUpperCase c1 /\ k1 = k2 /\ c1 = c2)
  /\ (forall a b,
        OuijaComment_body toUpperCase a = OuijaComment_body toUpperCase b ->
        OuijaComment_body toUpperCase a <> [] ->
        get_created a < get_created b ->
        hasReplies a = false -> hasReplies b = false ->
        (forall m st, m !! key a = None ->
           handleAll' [a; b] (m, st) = (<[key a := a]> m, remove b duplicate st)
           /\ handleAll' [b; a] (m, st) = (<[key a := a]> m, remove b duplicate st))
        /\ (forall xs ys zs st group,
              Forall (fun c => key c <> key a) (xs ++ ys ++ zs) ->
              group = xs ++ a :: ys ++ b :: zs \/ group = xs ++ b :: ys ++ a :: zs ->
              fst (handleAll' group (∅, st)) !! key a = Some a
              /\ (get_removed b = false ->
                  In (comment_id b, duplicate)
                     (removals (snd (handleAll' group (∅, st))))))).
Proof.
  assert (Hbody : forall c, OuijaComment_body toUpperCase c <> [] ->
                            key c = OuijaComment_body toUpperCase c).
  { intros c Hc. unfold get_body.
    destruct (OuijaComment_body toUpperCase c); [now destruct Hc | reflexivity]. }
  split; [exact Hbody|]. split.
  { intros siblings st k1 k2 c1 c2 H1 H2 Hk Hne.
    destruct (handleAll_filed siblings st k1 c1 H1) as [E1 _].
    destruct (handleAll_filed siblings st k2 c2 H2) as [E2 _].
    assert (Hkey : key c1 = key c2).
    { rewrite (Hbody c1 Hne), (Hbody c2) by (now rewrite <- Hk). exact Hk. }
    subst k1 k2. split; [now apply Hbody|]. split; [exact Hkey|].
    rewrite Hkey in H1. congruence. }
  intros a b Hsame Hne Htime Ha Hb.
  assert (Hkey : key a = key b).
  { rewrite (Hbody a Hne), (Hbody b) by (now rewrite <- Hsame). exact Hsame. }
  split; [intros m st Hm; now apply handle_pair|].
  intros xs ys zs st group Hothers Hgroup.
  apply Forall_app in Hothers as [Hxs Hyz]. apply Forall_app in Hyz as [Hys Hzs].
  destruct (handleAll_others xs (key a) Hxs ∅ st) as [Hx _].
  rewrite lookup_empty in Hx.
  destruct (handleAll' xs (∅, st)) as [m1 st1] eqn:E1. cbn [fst] in Hx.
  assert (Hgoal : forall m st0,
    m !! key a = Some a ->
    In (comment_id b, duplicate) (removals st0) \/ get_removed b = true ->
    fst (handleAll' zs (m, st0)) !! key a = Some a
    /\ (get_removed b = false ->
        In (comment_id b, duplicate) (removals (snd (handleAll' zs (m, st0)))))).
  { intros m st0 Hm Hin. destruct (handleAll_others zs (key a) Hzs m st0) as [Hz [e He]].
    split; [congruence|]. intros Hlive. rewrite He. apply in_or_app. left.
    destruct Hin as [Hin|Hin]; [exact Hin | congruence]. }
  assert (Hremoved : forall st0,
    In (comment_id b, duplicate) (removals (remove b duplicate st0))
    \/ get_removed b = true).
  { intros st0. unfold remove. destruct (get_removed b); [now right | left].
    cbn [removals]. apply in_or_app. right. now left. }
  destruct Hgroup as [-> | ->]; rewrite handleAll_app, E1, handleAll_cons.
  - rewrite (handle_fresh a m1 st1 Hx), handleAll_app.
    destruct (handleAll_others ys (key a) Hys (<[key a := a]> m1) st1) as [Hy _].
    rewrite lookup_insert_eq in Hy.
    destruct (handleAll' ys (<[key a := a]> m1, st1)) as [m2 st2]. cbn [fst] in Hy.
    rewrite handleAll_cons, (handle_later a b m2 st2); [| | exact Htime | exact Hb].
    + apply Hgoal; [exact Hy | apply Hremoved].
    + now rewrite <- Hkey.
  - rewrite (handle_fresh b m1 st1) by (now rewrite <- Hkey).
    rewrite <- Hkey, handleAll_app.
    destruct (handleAll_others ys (key a) Hys (<[key a := b]> m1) st1) as [Hy _].
    rewrite lookup_insert_eq in Hy.
    destruct (handleAll' ys (<[key a := b]> m1, st1)) as [m2 st2]. cbn [fst] in Hy.
    rewrite handleAll_cons, (handle_earlier b a m2 st2); [| exact Hy | lia | exact Hb].
    apply Hgoal; [apply lookup_insert_eq | apply Hremoved].
Qed.

End Deduplicator.

(** ** The sequence collector *)

Lemma extends_refl (p : list jsstring) (st : QueryState) : extends p st st.
Proof. exists [], [], []. rewrite !app_nil_r. repeat split; constructor. Qed.

Lemma extends_trans (p : list jsstring) (st1 st2 st3 : QueryState) :
  extends p st1 st2 -> extends p st2 st3 -> extends p st1 st3.
Proof.
  intros (c1 & i1 & r1 & Hc1 & Hi1 & Hr1 & Fc1 & Fi1)
         (c2 & i2 & r2 & Hc2 & Hi2 & Hr2 & Fc2 & Fi2).
  exists (c1 ++ c2), (i1 ++ i2), (r1 ++ r2).
  rewrite Hc2, Hc1, Hi2, Hi1, Hr2, Hr1, !app_assoc.
  repeat split; apply Forall_app; split; assumption.
Qed.

Lemma extends_shorter (p q : list jsstring) (st st' : QueryState) :
  extends (p ++ q) st st' -> extends p st st'.
Proof.
  intros (c1 & i1 & r1 & Hc1 & Hi1 & Hr1 & Fc1 & Fi1).
  exists c1, i1, r1. repeat split; try assumption.
  - eapply Forall_impl; [exact Fc1|]. intros r [rest ->]. exists (q ++ rest).
    now rewrite app_assoc.
  - eapply Forall_impl; [exact Fi1|]. intros r [rest ->]. exists (q ++ rest).
    now rewrite app_assoc.
Qed.

Lemma extends_remove (p : list jsstring) (c : Comment) (reason : Reason)
    (st : QueryState) :
  extends p st (remove c reason st).
Proof.
  unfold remove. destruct (get_removed c); [apply extends_refl|].
  exists [], [], [(comment_id c, reason)]. cbn. rewrite !app_nil_r.
  repeat split; constructor.
Qed.

Section Collector.

Variable toUpperCase : jsstring -> jsstring.
Variable ToNumber : jsstring -> number.
Variable post : Post.

Local Abbreviation type := (OuijaComment_type toUpperCase).
Local Abbreviation collect := (collectResponses toUpperCase ToNumber post).

Lemma extends_handle (p : list jsstring) (c : Comment)
    (m : gmap jsstring Comment) (st : QueryState) :
  extends p st (snd (handle toUpperCase c (m, st))).
Proof.
  unfold handle. repeat case_match; cbn [snd];
    auto using extends_refl, extends_remove.
Qed.

Lemma collectResponses_eq (comment : Comment) (letters : list jsstring)
    (st : QueryState) :
  collect comment letters st =
  match type comment with
  | Invalid => (false, remove comment invalid st)
  | Goodbye =>
      if tooShort ToNumber post letters then (false, st)
      else (true, pushComplete {| letters := letters; goodbye := comment |} st)
  | Letter =>
      let letters := letters ++ [get_body toUpperCase comment] in
      let '(hasChildren, (_, st1)) :=
        fold_left
          (visitReply toUpperCase (fun reply => collect reply letters) comment)
          (comment_replies comment) (false, (∅, st)) in
      (true,
       if hasChildren then st1
       else pushIncomplete {| partial_letters := letters; lastComment := comment |} st1)
  end.
Proof. destruct comment; reflexivity. Qed.

Lemma visitReplies_extends (comment : Comment) (p : list jsstring)
    (replies : list Comment) :
  Forall (fun r => forall letters st, extends letters st (snd (collect r letters st)))
         replies ->
  forall acc,
    extends p (snd (snd acc))
      (snd (snd (fold_left
                   (visitReply toUpperCase (fun reply => collect reply p) comment)
                   replies acc))).
Proof.
  induction 1 as [|r l Hr Hl IH]; intros acc; cbn [fold_left];
    [apply extends_refl|].
  eapply extends_trans; [|apply IH].
  destruct acc as [has [dup st]]. unfold visitReply. cbn [snd].
  destruct (jsstring_eqb (comment_author r) (comment_author comment)).
  - cbn [snd]. apply extends_remove.
  - specialize (Hr p st). destruct (collect r p st) as [found st1]. cbn [snd] in *.
    eapply extends_trans; [exact Hr | apply extends_handle].
Qed.

(** Every sequence a call records starts with the letters the call was
    given, and below a Letter with those letters followed by its own. *)
Lemma collectResponses_extends (comment : Comment) :
  forall letters st,
    extends letters st (snd (collect comment letters st)).
Proof.
  induction comment as [comment IH] using Comment_tree_ind. intros letters st.
  rewrite collectResponses_eq. destruct (type comment).
  - cbn zeta.
    pose proof (visitReplies_extends comment (letters ++ [get_body toUpperCase comment])
                  (comment_replies comment) IH (false, (∅, st))) as H.
    destruct (fold_left _ _ _) as [has [dup st1]]. cbn [snd] in *.
    apply extends_shorter with (q := [get_body toUpperCase comment]).
    destruct has; [exact H|].
    eapply extends_trans; [exact H|].
    exists [], [{| partial_letters := letters ++ [get_body toUpperCase comment];
                   lastComment := comment |}], [].
    cbn. rewrite !app_nil_r. repeat split; repeat constructor.
    exists []. now rewrite app_nil_r.
  - destruct (tooShort ToNumber post letters); cbn [snd]; [apply extends_refl|].
    exists [{| letters := letters; goodbye := comment |}], [], [].
    cbn. rewrite !app_nil_r. repeat split; repeat constructor.
    exists []. now rewrite app_nil_r.
  - cbn [snd]. apply extends_remove.
Qed.

Lemma collectResponses_letter (comment : Comment) (letters : list jsstring)
    (st : QueryState) :
  type comment = Letter ->
  fst (collect comment letters st) = true
  /\ extends (letters ++ [get_body toUpperCase comment]) st
       (snd (collect comment letters st)).
Proof.
  intros Ht. rewrite collectResponses_eq, Ht. cbn zeta.
  pose proof (visitReplies_extends comment (letters ++ [get_body toUpperCase comment])
                (comment_replies comment)) as H.
  specialize (H ltac:(apply List.Forall_forall; intros; apply collectResponses_extends)
                (false, (∅, st))).
  destruct (fold_left _ _ _) as [has [dup st1]]. cbn [fst snd] in *.
  split; [reflexivity|]. destruct has; [exact H|].
  eapply extends_trans; [exact H|].
  exists [], [{| partial_letters := letters ++ [get_body toUpperCase comment];
                 lastComment := comment |}], [].
  cbn. rewrite !app_nil_r. repeat split; repeat constructor.
  exists []. now rewrite app_nil_r.
Qed.

(** C8. A Goodbye (Terminator) comment reached with fewer letters than
    the minimum letter count of the configuration is discarded: the call
    reports no sequence and leaves the state as it was, so no complete
    sequence, no incomplete sequence and no removal is recorded for it.
    The count is compared as numbers, [letters.length < minletters]. *)
Theorem short_terminator_discarded (comment : Comment) (letters : list jsstring)
    (st : QueryState) (minletters : jsstring)
    (Htype : type comment = Goodbye)
    (Hconfig : config post !! MINLETTERS = Some minletters)
    (Hshort : js_lt (numZ (Z.of_nat (length letters))) (ToNumber minletters) = true) :
  collect comment letters st = (false, st).
Proof.
  rewrite collectResponses_eq, Htype. unfold tooShort.
  now rewrite Hconfig, (parseConfig_truthy _ _ _ Hconfig), Hshort.
Qed.

(** C10. A comment that is not banned and whose raw body is exactly
    [[deleted]] is normalized to the placeholder [*] and classified
    Letter; a call of the collector on it succeeds, and every sequence
    the call records continues the letters it was given with [*]. *)
Theorem deleted_comment_spells_star (comment : Comment)
    (Hraw : comment_body comment = DELETED)
    (Hlive : truthy (comment_banned_by comment) = false) :
  OuijaComment_body toUpperCase comment = STAR
  /\ type comment = Letter
  /\ (forall letters st,
        fst (collect comment letters st) = true
        /\ extends (letters ++ [STAR]) st (snd (collect comment letters st))
        /\ (comment_replies comment = [] ->
            snd (collect comment letters st)
            = pushIncomplete {| partial_letters := letters ++ [STAR];
                                lastComment := comment |} st)).
Proof.
  assert (Hbody : OuijaComment_body toUpperCase comment = STAR).
  { unfold OuijaComment_body. now rewrite Hraw. }
  assert (Htype : type comment = Letter).
  { unfold OuijaComment_type. now rewrite Hlive, Hbody. }
  assert (Hget : get_body toUpperCase comment = STAR).
  { unfold get_body. now rewrite Hbody. }
  split; [exact Hbody|]. split; [exact Htype|]. intros letters st.
  destruct (collectResponses_letter comment letters st Htype) as [H1 H2].
  rewrite Hget in H2. split; [exact H1|]. split; [exact H2|].
  intros Hnil. rewrite collectResponses_eq, Htype, Hnil, Hget. reflexivity.
Qed.

End Collector.

(** ** The summary page *)

Lemma fold_left_append {A : Type} (f : A -> jsstring) (l : list A) (init : jsstring) :
  fold_left (fun text x => text ++ f x) l init = init ++ List.concat (List.map f l).
Proof.
  revert init. induction l as [|x l IH]; intros init; cbn.
  - now rewrite app_nil_r.
  - now rewrite IH, app_assoc.
Qed.

Lemma fold_left_ext {A B : Type} (f g : A -> B -> A) :
  (forall a b, f a b = g a b) ->
  forall l init, fold_left f l init = fold_left g l init.
Proof.
  intros H l. induction l as [|x l IH]; intros init; cbn; [reflexivity|].
  now rewrite H, IH.
Qed.

Section Summary.

Variable toUpperCase : jsstring -> jsstring.
Variable ToNumber : jsstring -> number.
Variable duration : jsstring -> option Z.
Variable EOL : jsstring.
Variable COMMENT_SCORE_THRESHOLD : option jsstring.

Local Abbreviation run' :=
  (run toUpperCase ToNumber duration COMMENT_SCORE_THRESHOLD).
Local Abbreviation listed' := (listed EOL).

Lemma processPending_listed (queries : list OuijaQuery) :
  processPending EOL queries = List.concat (List.map listed' (rev queries)).
Proof.
  unfold processPending.
  rewrite <- (app_nil_l (List.concat _)), <- fold_left_append.
  apply fold_left_ext. intros text q. unfold listed.
  destruct (answered q); [now rewrite app_nil_r | reflexivity].
Qed.

(** C4, as the program has it. The page lists every submission of the
    batch that has no winner, the last evaluated first, and leaves out
    those that have one.  A submission whose evaluation is pending has no
    winner, so it is listed like an open one.  The entry of a submission
    is exactly its heading, then, when the run collected complete
    sequences, the table with one row for each of them in order (letters,
    link to the terminator, score of the terminator), then, when the run
    collected incomplete sequences, the table with one row for each of
    them (letters, link to the last comment). *)
Theorem summary_lists_every_unanswered (post : Post) (now : Z) :
  let response := fst (run' post now) in
  let query := snd (run' post now) in
  (forall before after,
      processPending EOL (before ++ query :: after)
      = processPending EOL after ++ listed' query ++ processPending EOL before)
  /\ (response = None -> listed' query = summaryEntry EOL query)
  /\ (response <> None -> listed' query = [])
  /\ (hasTimeLeft toUpperCase duration post now = true ->
      response = None /\ processPending EOL [query] = summaryEntry EOL query)
  /\ responses query = collectAll toUpperCase ToNumber post
  /\ summaryEntry EOL query
     = js "### [" ++ post_title post ++ js "](" ++ post_url post ++ js ")" ++ EOL
         ++ (match complete (collectAll toUpperCase ToNumber post) with
             | [] => []
             | _ :: _ =>
                 js "#### Pending" ++ EOL ++ js "Letters | Score" ++ EOL
                   ++ js "--------|------" ++ EOL
                   ++ List.concat
                        (List.map
                           (fun pending =>
                              js "[" ++ orElse (join (letters pending)) (js "[blank]")
                                ++ js "]("
                                ++ (post_url post ++ comment_id (goodbye pending)
                                    ++ js "?context=999")
                                ++ js ") | "
                                ++ numberToString (comment_score (goodbye pending))
                                ++ EOL)
                           (complete (collectAll toUpperCase ToNumber post)))
             end)
         ++ (match incomplete (collectAll toUpperCase ToNumber post) with
             | [] => []
             | _ :: _ =>
                 js "#### Incomplete" ++ EOL ++ js "Letters |" ++ EOL
                   ++ js "--------|" ++ EOL
                   ++ List.concat
                        (List.map
                           (fun sequence =>
                              js "[" ++ join (partial_letters sequence)
                                ++ js "]("
                                ++ (post_url post ++ comment_id (lastComment sequence)
                                    ++ js "?context=999")
                                ++ js ") |" ++ EOL)
                           (incomplete (collectAll toUpperCase ToNumber post)))
             end)
  /\ (forall q,
        createPendingWikiMarkdown EOL q
        = js "#### Pending" ++ EOL ++ js "Letters | Score" ++ EOL
            ++ js "--------|------" ++ EOL
            ++ List.concat
                 (List.map
                    (fun pending =>
                       js "[" ++ orElse (join (letters pending)) (js "[blank]")
                         ++ js "]("
                         ++ (post_url (query_post q) ++ comment_id (goodbye pending)
                             ++ js "?context=999")
                         ++ js ") | " ++ numberToString (comment_score (goodbye pending))
                         ++ EOL)
                    (complete (responses q))))
  /\ (forall q,
        createIncompleteWikiMarkdown EOL q
        = js "#### Incomplete" ++ EOL ++ js "Letters |" ++ EOL
            ++ js "--------|" ++ EOL
            ++ List.concat
                 (List.map
                    (fun sequence =>
                       js "[" ++ join (partial_letters sequence)
                         ++ js "]("
                         ++ (post_url (query_post q) ++ comment_id (lastComment sequence)
                             ++ js "?context=999")
                         ++ js ") |" ++ EOL)
                    (incomplete (responses q)))).
Proof.
  intros response query.
  assert (Hnone : response = None -> listed' query = summaryEntry EOL query).
  { subst response query. unfold listed, run. cbn [fst snd answered].
    now intros ->. }
  split.
  { intros before after. rewrite !processPending_listed.
    rewrite rev_app_distr. cbn [rev]. rewrite <- app_assoc.
    now rewrite List.map_app, List.concat_app, List.map_app, List.concat_app; cbn;
      rewrite app_nil_r. }
  split; [exact Hnone|]. split.
  { subst response query. unfold listed, run. cbn [fst snd answered].
    destruct (getResponse _ _ _ _ _ _ _); [reflexivity | congruence]. }
  split.
  { intros Hp.
    assert (Hr : response = None).
    { subst response. unfold run, getResponse. cbn [fst]. now rewrite Hp. }
    split; [exact Hr|]. rewrite processPending_listed.
    cbn [rev app List.map List.concat]. now rewrite app_nil_r, (Hnone Hr). }
  assert (Hpending : forall q,
            createPendingWikiMarkdown EOL q
            = js "#### Pending" ++ EOL ++ js "Letters | Score" ++ EOL
                ++ js "--------|------" ++ EOL
                ++ List.concat
                     (List.map
                        (fun pending =>
                           js "[" ++ orElse (join (letters pending)) (js "[blank]")
                             ++ js "]("
                             ++ (post_url (query_post q) ++ comment_id (goodbye pending)
                                 ++ js "?context=999")
                             ++ js ") | "
                             ++ numberToString (comment_score (goodbye pending))
                             ++ EOL)
                        (complete (responses q)))).
  { intros q. unfold createPendingWikiMarkdown. cbn zeta.
    rewrite fold_left_append, <- !app_assoc. reflexivity. }
  assert (Hincomplete : forall q,
            createIncompleteWikiMarkdown EOL q
            = js "#### Incomplete" ++ EOL ++ js "Letters |" ++ EOL
                ++ js "--------|" ++ EOL
                ++ List.concat
                     (List.map
                        (fun sequence =>
                           js "[" ++ join (partial_letters sequence)
                             ++ js "]("
                             ++ (post_url (query_post q)
                                 ++ comment_id (lastComment sequence)
                                 ++ js "?context=999")
                             ++ js ") |" ++ EOL)
                        (incomplete (responses q)))).
  { intros q. unfold createIncompleteWikiMarkdown. cbn zeta.
    rewrite fold_left_append, <- !app_assoc. reflexivity. }
  split; [reflexivity|]. split.
  { unfold summaryEntry. rewrite (Hpending query), (Hincomplete query).
    subst query. unfold run. cbn [snd query_post responses]. reflexivity. }
  split; [exact Hpending | exact Hincomplete].
Qed.

End Summary.

(** ** The scanners have fuel enough *)

Lemma matchTarget_length (s rest : jsstring) :
  matchTarget s = Some rest -> (length rest < length s)%nat.
Proof.
  revert rest. induction s as [|u t IH]; intros rest; cbn [matchTarget]; [discriminate|].
  destruct (u =? RPAREN); [intros [= ->]; cbn; lia|].
  destruct (isLineTerminator u); [discriminate|].
  intros H. apply IH in H. cbn. lia.
Qed.

Lemma matchText_length (s g rest : jsstring) :
  matchText s = Some (g, rest) -> (length rest < length s)%nat.
Proof.
  revert g rest. induction s as [|u t IH]; intros g rest; [discriminate|].
  cbn [matchText].
  destruct (match u :: t with
            | a :: b :: r => if (a =? RBRACKET) && (b =? LPAREN) then matchTarget r else None
            | _ => None
            end) as [r0|] eqn:E.
  - intros [= <- <-]. destruct t as [|b r]; [discriminate|].
    destruct ((u =? RBRACKET) && (b =? LPAREN)); [|discriminate].
    apply matchTarget_length in E. cbn in *. lia.
  - destruct (isLineTerminator u); [discriminate|].
    destruct (matchText t) as [[g' rest']|] eqn:E'; [|discriminate].
    intros [= <- <-]. specialize (IH _ _ eq_refl). cbn. lia.
Qed.

Lemma replaceLinks_fuel (n : nat) :
  forall m s, (length s <= n)%nat -> (length s <= m)%nat ->
  replaceLinks n s = replaceLinks m s.
Proof.
  induction n as [|n IH]; intros m s Hn Hm.
  - destruct s; [|cbn in Hn; lia]. now destruct m.
  - destruct m as [|m]; [destruct s; [reflexivity | cbn in Hm; lia]|].
    destruct s as [|u t]; [reflexivity|]. cbn [replaceLinks]. cbn in Hn, Hm.
    destruct (u =? LBRACKET).
    + destruct (matchText t) as [[g rest]|] eqn:E.
      * apply matchText_length in E. f_equal. apply IH; lia.
      * f_equal. apply IH; lia.
    + f_equal. apply IH; lia.
Qed.

(** [replaceLink] satisfies the equation of the replacement loop. *)
Lemma replaceLink_cons (u : Z) (t : jsstring) :
  replaceLink (u :: t) =
  if u =? LBRACKET then
    match matchText t with
    | Some (g, rest) => g ++ replaceLink rest
    | None => u :: replaceLink t
    end
  else u :: replaceLink t.
Proof.
  unfold replaceLink. cbn [length replaceLinks].
  destruct (u =? LBRACKET); [|reflexivity].
  destruct (matchText t) as [[g rest]|] eqn:E; [|reflexivity].
  apply matchText_length in E. f_equal. apply replaceLinks_fuel; lia.
Qed.

Lemma trimStart_length (s : jsstring) : (length (trimStart s) <= length s)%nat.
Proof.
  induction s as [|u t IH]; cbn; [lia|]. destruct (isSpace u); cbn; lia.
Qed.

Lemma spanWord_length (s : jsstring) :
  (length (snd (spanWord s)) <= length s)%nat.
Proof.
  induction s as [|u t IH]; cbn; [lia|].
  destruct (isWord u); [|cbn; lia].
  destruct (spanWord t) as [w r]. cbn in *. lia.
Qed.

Lemma spanWord_word (u : Z) (t : jsstring) :
  isWord u = true -> (length (snd (spanWord (u :: t))) <= length t)%nat.
Proof.
  intros Hu. cbn. rewrite Hu. pose proof (spanWord_length t) as H.
  destruct (spanWord t) as [w r]. exact H.
Qed.

Lemma parseConfigFrom_fuel (n : nat) :
  forall m s config, (length s <= n)%nat -> (length s <= m)%nat ->
  parseConfigFrom n s config = parseConfigFrom m s config.
Proof.
  induction n as [|n IH]; intros m s config Hn Hm.
  - destruct s; [|cbn in Hn; lia]. now destruct m.
  - destruct m as [|m]; [destruct s; [reflexivity | cbn in Hm; lia]|].
    destruct s as [|u t]; [reflexivity|]. cbn [parseConfigFrom]. cbn [length] in Hn, Hm.
    destruct (isWord u) eqn:Hu; [|apply IH; lia].
    pose proof (spanWord_word u t Hu) as Hr1.
    destruct (spanWord (u :: t)) as [name r1]. cbn [snd] in Hr1.
    pose proof (trimStart_length r1) as Hs1.
    destruct (trimStart r1) as [|c r2]; [apply IH; lia|].
    destruct (c =? COLON); [|apply IH; lia].
    pose proof (trimStart_length r2) as Hs2.
    pose proof (spanWord_length (trimStart r2)) as Hr4.
    destruct (spanWord (trimStart r2)) as [value r4]. cbn [snd] in Hr4.
    cbn [length] in Hs1.
    destruct value; apply IH; lia.
Qed.

(** ** Concrete runs *)

Lemma Sample_toUpperCase_noLowerCase (s : jsstring) :
  noLowerCase (Sample.toUpperCase s).
Proof.
  unfold noLowerCase, Sample.toUpperCase. apply Forall_map.
  apply List.Forall_forall. intros u _. cbn beta.
  destruct (inRange 97 122 u) eqn:E; [|exact E].
  apply inRange_true in E. unfold inRange. zfalse.
Qed.

Lemma winner_is_stable_max_over_threshold_witness :
  hasTimeLeft Sample.toUpperCase Sample.duration Cases.minscore8 0 = false
  /\ config Cases.minscore8 !! MINSCORE = Some (js "8")
  /\ fst (Sample.run "10" Cases.minscore8 0) = Some Sample.r9
  /\ config Cases.minscore10 !! MINSCORE = Some (js "10")
  /\ fst (Sample.run "8" Cases.minscore10 0) = None.
Proof.
  pose proof (fun th p (Hp : hasTimeLeft Sample.toUpperCase Sample.duration p 0 = false) =>
    winner_is_stable_max_over_threshold Sample.toUpperCase Sample.ToNumber
      Sample.duration (Some (js th)) p 0
      (collectAll Sample.toUpperCase Sample.ToNumber p) Hp) as H.
  assert (Hp8 : hasTimeLeft Sample.toUpperCase Sample.duration Cases.minscore8 0 = false)
    by (vm_compute; reflexivity).
  assert (Hp10 : hasTimeLeft Sample.toUpperCase Sample.duration Cases.minscore10 0 = false)
    by (vm_compute; reflexivity).
  assert (Hc8 : complete (collectAll Sample.toUpperCase Sample.ToNumber Cases.minscore8)
                = [Sample.r5; Sample.r9]) by (vm_compute; reflexivity).
  assert (Hc10 : complete (collectAll Sample.toUpperCase Sample.ToNumber Cases.minscore10)
                 = [Sample.r5; Sample.r9]) by (vm_compute; reflexivity).
  assert (Hm8 : config Cases.minscore8 !! MINSCORE = Some (js "8"))
    by (vm_compute; reflexivity).
  assert (Hm10 : config Cases.minscore10 !! MINSCORE = Some (js "10"))
    by (vm_compute; reflexivity).
  split; [exact Hp8|]. split; [exact Hm8|]. split; [|split; [exact Hm10|]].
  - destruct (H "10"%string Cases.minscore8 Hp8)
      as (_ & _ & _ & _ & _ & _ & _ & _ & _ & _ & _ & H8).
    destruct (H8 Sample.r5 Sample.r9 (js "8") Hc8 eq_refl eq_refl (or_introl Hm8))
      as [Hwin _].
    apply Hwin. vm_compute; reflexivity.
  - destruct (H "8"%string Cases.minscore10 Hp10)
      as (_ & _ & _ & _ & _ & _ & _ & _ & _ & _ & _ & H10).
    destruct (H10 Sample.r5 Sample.r9 (js "10") Hc10 eq_refl eq_refl (or_introl Hm10))
      as [_ Hnone].
    apply Hnone. vm_compute; reflexivity.
Defined.

Lemma pending_returns_no_winner_witness :
  config Sample.waiting !! TIME = Some (js "2h")
  /\ Sample.duration (PT ++ Sample.toUpperCase (js "2h")) = Some 7200000
  /\ 1000000 < post_created_utc Sample.waiting * 1000 + 7200000
  /\ fst (Sample.run "8" Sample.waiting 1000000) = None.
Proof.
  assert (H1 : config Sample.waiting !! TIME = Some (js "2h")) by (vm_compute; reflexivity).
  assert (H2 : Sample.duration (PT ++ Sample.toUpperCase (js "2h")) = Some 7200000)
    by (vm_compute; reflexivity).
  assert (H3 : 1000000 < post_created_utc Sample.waiting * 1000 + 7200000)
    by (vm_compute; reflexivity).
  split; [exact H1|]. split; [exact H2|]. split; [exact H3|].
  destruct (pending_returns_no_winner Sample.toUpperCase Sample.ToNumber Sample.duration
              (Some (js "8")) Sample.waiting 1000000 emptyState) as [H _].
  destruct (H (js "2h") 7200000 H1 H2 H3) as (_ & _ & Hrun). exact Hrun.
Defined.

Lemma classification_priority_witness :
  (forall s, noLowerCase (Sample.toUpperCase s))
  /\ OuijaComment_type Sample.toUpperCase Sample.g5 = Goodbye.
Proof.
  split; [exact Sample_toUpperCase_noLowerCase|].
  pose proof (classification_priority Sample.toUpperCase
                Sample_toUpperCase_noLowerCase Sample.g5) as H.
  cbv zeta in H. destruct H as (_ & _ & H & _).
  destruct (H ltac:(vm_compute; reflexivity)) as (_ & Hg & _).
  apply Hg; [vm_compute; discriminate | vm_compute; reflexivity].
Defined.

(** The submission that waits is on the page, heading and candidates,
    although its evaluation is pending. *)
Lemma pending_submission_is_listed :
  hasTimeLeft Sample.toUpperCase Sample.duration Sample.waiting 1000000 = true
  /\ fst (Sample.run "8" Sample.waiting 1000000) = None
  /\ processPending Sample.EOL [snd (Sample.run "8" Sample.waiting 1000000)]
     = js "### [Yes or no?](https://redd.it/q1/)" ++ Sample.EOL
       ++ js "#### Pending" ++ Sample.EOL
       ++ js "Letters | Score" ++ Sample.EOL
       ++ js "--------|------" ++ Sample.EOL
       ++ js "[Y](https://redd.it/q1/g5?context=999) | 5" ++ Sample.EOL
       ++ js "[N](https://redd.it/q1/g9?context=999) | 9" ++ Sample.EOL.
Proof. vm_compute. repeat split. Qed.

Lemma summary_lists_every_unanswered_witness :
  hasTimeLeft Sample.toUpperCase Sample.duration Sample.waiting 1000000 = true
  /\ processPending Sample.EOL [snd (Sample.run "8" Sample.waiting 1000000)]
     = summaryEntry Sample.EOL (snd (Sample.run "8" Sample.waiting 1000000)).
Proof.
  assert (Hp : hasTimeLeft Sample.toUpperCase Sample.duration Sample.waiting 1000000 = true)
    by (vm_compute; reflexivity).
  split; [exact Hp|].
  pose proof (summary_lists_every_unanswered Sample.toUpperCase Sample.ToNumber
                Sample.duration Sample.EOL (Some (js "8")) Sample.waiting 1000000) as H.
  cbv zeta in H. destruct H as (_ & _ & _ & H & _).
  destruct (H Hp) as [_ Hlisted]. exact Hlisted.
Defined.

(** C5, at a failing input. On a meta submission the loop of [run] leaves
    the top-level Invalid comment t2 alone, but [collectResponses] removes
    the Invalid reply n1 below the Letter t1: it has no test of [isMeta] or
    [isModPost].  The reply n2 below n1 is not visited. *)
Theorem meta_post_removes_nested_invalid :
  isMeta Sample.metaPost = true
  /\ OuijaComment_type Sample.toUpperCase Sample.n1 = Invalid
  /\ removals (responses (snd (Sample.run "8" Sample.metaPost 0)))
     = [(js "n1", invalid)]
  /\ complete (responses (snd (Sample.run "8" Sample.metaPost 0))) = []
  /\ List.map partial_letters (incomplete (responses (snd (Sample.run "8" Sample.metaPost 0))))
     = [[js "K"]].
Proof. vm_compute. repeat split. Qed.



(** A keycap is three code points, none of them white space, a bracket
    or a backslash; stripped, its digit is left and the comment is
    Letter. *)
Lemma keycap_emoji_is_letter :
  comment_body Cases.keycap = [49; 65039; 8419]
  /\ countSymbols (comment_body Cases.keycap) = 3%nat
  /\ OuijaComment_body Sample.toUpperCase Cases.keycap = js "1"
  /\ OuijaComment_type Sample.toUpperCase Cases.keycap = Letter.
Proof. vm_compute. repeat split. Qed.

(** C7, at a failing input. Two siblings without replies, "!!" created
    at 10 and "??" created at 20, answer the letter "Q".  Both have the
    empty string as normalized body.  The handler reads the body through
    the proxy, which passes an empty normalized body over and hands out
    the raw one: the two are filed under "!!" and "??", both are
    retained, and [remove('duplicate')] is called on neither.  In the
    run over the letter, the only removals are the two ['invalid'] ones
    of the collector. *)
Theorem empty_bodies_are_both_retained :
  OuijaComment_body Sample.toUpperCase Sample.bangs = []
  /\ OuijaComment_body Sample.toUpperCase Sample.marks = []
  /\ get_created Sample.bangs < get_created Sample.marks
  /\ hasReplies Sample.bangs = false /\ hasReplies Sample.marks = false
  /\ fst (handleAll Sample.toUpperCase [Sample.bangs; Sample.marks] (∅, emptyState))
       !! js "!!" = Some Sample.bangs
  /\ fst (handleAll Sample.toUpperCase [Sample.bangs; Sample.marks] (∅, emptyState))
       !! js "??" = Some Sample.marks
  /\ removals (snd (handleAll Sample.toUpperCase [Sample.bangs; Sample.marks] (∅, emptyState)))
     = []
  /\ get_body Sample.toUpperCase Sample.bangs = js "!!"
  /\ get_body Sample.toUpperCase Sample.marks = js "??"
  /\ handleAll Sample.toUpperCase [Sample.marks; Sample.bangs] (∅, emptyState)
     = handleAll Sample.toUpperCase [Sample.bangs; Sample.marks] (∅, emptyState)
  /\ comment_replies Cases.bangParent = [Sample.bangs; Sample.marks]
  /\ removals (snd (collectResponses Sample.toUpperCase Sample.ToNumber Sample.twoAnswers
                      Cases.bangParent [] emptyState))
     = [(js "s3", invalid); (js "s4", invalid)].
Proof. vm_compute. repeat split. Qed.

(** The same reading files a lone backslash, whose normalized body is
    empty, under the key of the letter backslash: the later sibling, a
    Letter and the only one with its normalized body, is removed as a
    duplicate of it after its sequence has been recorded. *)
Lemma letter_is_duplicate_of_empty_body :
  OuijaComment_body Sample.toUpperCase Cases.slash = []
  /\ OuijaComment_type Sample.toUpperCase Cases.slash = Invalid
  /\ OuijaComment_body Sample.toUpperCase Cases.slashes = [BACKSLASH]
  /\ OuijaComment_type Sample.toUpperCase Cases.slashes = Letter
  /\ get_body Sample.toUpperCase Cases.slash = get_body Sample.toUpperCase Cases.slashes
  /\ removals (snd (collectResponses Sample.toUpperCase Sample.ToNumber Sample.twoAnswers
                      Cases.slashParent [] emptyState))
     = [(js "s5", invalid); (js "s6", duplicate)]
  /\ List.map partial_letters
       (incomplete (snd (collectResponses Sample.toUpperCase Sample.ToNumber
                           Sample.twoAnswers Cases.slashParent [] emptyState)))
     = [[js "Q"; [BACKSLASH]]].
Proof. vm_compute. repeat split. Qed.

Lemma deduplicator_keeps_earliest_witness :
  OuijaComment_body Sample.toUpperCase Sample.early
  = OuijaComment_body Sample.toUpperCase Sample.late
  /\ OuijaComment_body Sample.toUpperCase Sample.early <> []
  /\ get_created Sample.early < get_created Sample.late
  /\ hasReplies Sample.early = false /\ hasReplies Sample.late = false
  /\ handleAll Sample.toUpperCase [Sample.late; Sample.early] (∅, emptyState)
     = (<[get_body Sample.toUpperCase Sample.early := Sample.early]> ∅,
        remove Sample.late duplicate emptyState).
Proof.
  assert (H1 : OuijaComment_body Sample.toUpperCase Sample.early
               = OuijaComment_body Sample.toUpperCase Sample.late)
    by (vm_compute; reflexivity).
  assert (H0 : OuijaComment_body Sample.toUpperCase Sample.early <> [])
    by (vm_compute; discriminate).
  assert (H2 : get_created Sample.early < get_created Sample.late)
    by (vm_compute; reflexivity).
  split; [exact H1|]. split; [exact H0|]. split; [exact H2|].
  split; [reflexivity|]. split; [reflexivity|].
  destruct (deduplicator_keeps_earliest Sample.toUpperCase) as (_ & _ & H).
  destruct (H Sample.early Sample.late H1 H0 H2 eq_refl eq_refl) as [Hpair _].
  destruct (Hpair ∅ emptyState (lookup_empty _)) as [_ Hrev]. exact Hrev.
Defined.

Lemma short_terminator_discarded_witness :
  OuijaComment_type Sample.toUpperCase Sample.g5 = Goodbye
  /\ config Sample.threeLetters !! MINLETTERS = Some (js "3")
  /\ js_lt (numZ (Z.of_nat (length [js "Y"]))) (Sample.ToNumber (js "3")) = true
  /\ collectResponses Sample.toUpperCase Sample.ToNumber Sample.threeLetters
       Sample.g5 [js "Y"] emptyState = (false, emptyState).
Proof.
  assert (H1 : OuijaComment_type Sample.toUpperCase Sample.g5 = Goodbye)
    by (vm_compute; reflexivity).
  assert (H2 : config Sample.threeLetters !! MINLETTERS = Some (js "3"))
    by (vm_compute; reflexivity).
  assert (H3 : js_lt (numZ (Z.of_nat (length [js "Y"]))) (Sample.ToNumber (js "3")) = true)
    by (vm_compute; reflexivity).
  split; [exact H1|]. split; [exact H2|]. split; [exact H3|].
  exact (short_terminator_discarded Sample.toUpperCase Sample.ToNumber Sample.threeLetters
           Sample.g5 [js "Y"] emptyState (js "3") H1 H2 H3).
Defined.



Lemma deleted_comment_spells_star_witness :
  comment_body Sample.withdrawn = DELETED
  /\ truthy (comment_banned_by Sample.withdrawn) = false
  /\ OuijaComment_type Sample.toUpperCase Sample.withdrawn = Letter
  /\ List.map letters
       (complete (snd (collectResponses Sample.toUpperCase Sample.ToNumber
                         Sample.twoAnswers Sample.withdrawn [js "A"] emptyState)))
     = [[js "A"; js "*"]].
Proof.
  split; [reflexivity|]. split; [reflexivity|].
  destruct (deleted_comment_spells_star Sample.toUpperCase Sample.ToNumber
              Sample.twoAnswers Sample.withdrawn eq_refl eq_refl) as (_ & H & _).
  split; [exact H | vm_compute; reflexivity].
Defined.

(** * Further properties of the program *)

(** ** Symbols, links and escapes *)

Lemma countSymbols_bounds_upto (n : nat) :
  forall s, (length s <= n)%nat ->
  (countSymbols s <= length s <= 2 * countSymbols s)%nat.
Proof.
  induction n as [|n IH]; intros s Hs.
  - destruct s; [cbn; lia | cbn in Hs; lia].
  - destruct s as [|u [|v t]]; [cbn; lia | cbn; lia |].
    cbn [length] in Hs.
    assert (Ht : (length t <= n)%nat) by lia.
    assert (Hvt : (length (v :: t) <= n)%nat) by (cbn [length]; lia).
    specialize (IH t Ht) as H1. specialize (IH (v :: t) Hvt) as H2.
    cbn [countSymbols] in *. cbn [length] in *.
    destruct (isHighSurrogate u && isLowSurrogate v); lia.
Qed.

(** X1. The symbol count of a string is at most its number of code units
    and at least half of it, and it is zero only for the empty string. *)
Theorem countSymbols_bounds (s : jsstring) :
  (countSymbols s <= length s <= 2 * countSymbols s)%nat
  /\ (countSymbols s = 0%nat <-> s = []).
Proof.
  pose proof (countSymbols_bounds_upto (length s) s (le_n _)) as H.
  split; [exact H|]. split.
  - intros H0. destruct s; [reflexivity | cbn [length] in H; lia].
  - intros ->. reflexivity.
Qed.

Lemma replaceLink_nil : replaceLink [] = [].
Proof. reflexivity. Qed.

(** X2. A body without an opening bracket has no link: the link
    replacement returns it as it is. *)
Theorem replaceLink_without_bracket (s : jsstring) :
  ~ In LBRACKET s -> replaceLink s = s.
Proof.
  induction s as [|u t IH]; intros Hs; [reflexivity|].
  rewrite replaceLink_cons.
  destruct (Z.eqb_spec u LBRACKET) as [->|_]; [exfalso; apply Hs; now left|].
  rewrite IH; [reflexivity|]. intros H. apply Hs. now right.
Qed.

Lemma matchTarget_closing (target rest : jsstring) :
  Forall (fun u => u <> RPAREN /\ isLineTerminator u = false) target ->
  matchTarget (target ++ RPAREN :: rest) = Some rest.
Proof.
  induction 1 as [|u t [Hu Hlt] _ IH]; cbn [app matchTarget].
  - now rewrite Z.eqb_refl.
  - destruct (Z.eqb_spec u RPAREN); [contradiction|]. now rewrite Hlt.
Qed.

Lemma matchText_closing (text tail rest : jsstring) :
  Forall (fun u => u <> RBRACKET /\ isLineTerminator u = false) text ->
  matchTarget tail = Some rest ->
  matchText (text ++ RBRACKET :: LPAREN :: tail) = Some (text, rest).
Proof.
  intros Htext Htail. induction Htext as [|u t [Hu Hlt] _ IH].
  - cbn [app matchText]. rewrite !Z.eqb_refl. cbn [andb]. now rewrite Htail.
  - cbn [app]. cbn [matchText]. fold (matchText (t ++ RBRACKET :: LPAREN :: tail)).
    rewrite IH, Hlt.
    destruct (Z.eqb_spec u RBRACKET); [contradiction|].
    destruct (t ++ RBRACKET :: LPAREN :: tail); reflexivity.
Qed.

Lemma replaceLink_app_no_bracket (before s : jsstring) :
  ~ In LBRACKET before -> replaceLink (before ++ s) = before ++ replaceLink s.
Proof.
  induction before as [|u t IH]; intros Hb; [reflexivity|].
  cbn [app]. rewrite replaceLink_cons.
  destruct (Z.eqb_spec u LBRACKET) as [->|_]; [exfalso; apply Hb; now left|].
  rewrite IH; [reflexivity|]. intros H. apply Hb. now right.
Qed.

(** X3. A markdown link [[text](target)] whose text has no closing bracket
    and whose target has no closing parenthesis, neither with a line
    break, is replaced by its text; what comes before the first link is
    kept and the replacement goes on behind the link. *)
Theorem replaceLink_link (before text target rest : jsstring)
    (Hbefore : ~ In LBRACKET before)
    (Htext : Forall (fun u => u <> RBRACKET /\ isLineTerminator u = false) text)
    (Htarget : Forall (fun u => u <> RPAREN /\ isLineTerminator u = false) target) :
  replaceLink (before ++ LBRACKET :: text ++ RBRACKET :: LPAREN :: target
                 ++ RPAREN :: rest)
  = before ++ text ++ replaceLink rest.
Proof.
  rewrite (replaceLink_app_no_bracket before _ Hbefore), replaceLink_cons.
  rewrite Z.eqb_refl.
  now rewrite (matchText_closing text _ rest Htext (matchTarget_closing target rest Htarget)).
Qed.

Section Escapes.

Variable toUpperCase : jsstring -> jsstring.

Lemma parseBody_one_unit (u : Z) :
  isSpace u = false -> u <> BACKSLASH ->
  parseBody toUpperCase [u]
  = if u =? 223 then [u] else toUpperCase [u].
Proof.
  intros Hs Hb.
  assert (Hdel : jsstring_eqb [u] DELETED = false)
    by (apply bool_decide_eq_false_2; discriminate).
  assert (Hlink : replaceLink [u] = [u]).
  { unfold replaceLink. cbn [length replaceLinks matchText].
    destruct (u =? LBRACKET); reflexivity. }
  assert (Hfirst : replaceFirst BACKSLASH [u] = [u]).
  { cbn [replaceFirst]. now destruct (Z.eqb_spec u BACKSLASH). }
  assert (Htrim : trim [u] = [u]).
  { unfold trim. cbn [trimStart]. rewrite Hs. cbn [rev app trimStart]. now rewrite Hs. }
  unfold parseBody. rewrite Hdel, Hlink, Hfirst, Htrim. cbn [countSymbols Nat.ltb Nat.leb].
  unfold jsstring_eqb, SHARP_S.
  destruct (Z.eqb_spec u 223) as [->|Hne].
  - now rewrite bool_decide_eq_true_2.
  - rewrite bool_decide_eq_false_2; [reflexivity | congruence].
Qed.

(** X4. A body of one code unit that is neither white space nor a
    backslash is normalized to its upper case, except the sharp s, which
    is kept as it is; the same body written with the markdown escape in
    front is normalized to the same result. *)
Theorem parseBody_escaped_unit (u : Z)
    (Hspace : isSpace u = false) (Hback : u <> BACKSLASH) :
  parseBody toUpperCase [u] = (if u =? 223 then [u] else toUpperCase [u])
  /\ parseBody toUpperCase [BACKSLASH; u] = parseBody toUpperCase [u].
Proof.
  split; [now apply parseBody_one_unit|].
  rewrite (parseBody_one_unit u Hspace Hback).
  assert (Hdel : jsstring_eqb [BACKSLASH; u] DELETED = false)
    by (apply bool_decide_eq_false_2; discriminate).
  assert (Hlink : replaceLink [BACKSLASH; u] = [BACKSLASH; u]).
  { unfold replaceLink. cbn [length replaceLinks matchText].
    change (BACKSLASH =? LBRACKET) with false. cbn iota.
    destruct (u =? LBRACKET); reflexivity. }
  assert (Hfirst : replaceFirst BACKSLASH [BACKSLASH; u] = [u]) by reflexivity.
  assert (Htrim : trim [u] = [u]).
  { unfold trim. cbn [trimStart]. rewrite Hspace. cbn [rev app trimStart].
    now rewrite Hspace. }
  unfold parseBody. rewrite Hdel, Hlink, Hfirst, Htrim. cbn [countSymbols Nat.ltb Nat.leb].
  unfold jsstring_eqb, SHARP_S.
  destruct (Z.eqb_spec u 223) as [->|Hne].
  - now rewrite bool_decide_eq_true_2.
  - rewrite bool_decide_eq_false_2; [reflexivity | congruence].
Qed.

End Escapes.

Lemma includesIgnoreCase_iff (p s : jsstring) :
  includesIgnoreCase p s = true
  <-> exists before rest, s = before ++ rest /\ startsWithIgnoreCase p rest = true.
Proof.
  induction s as [|u t IH].
  - cbn [includesIgnoreCase]. rewrite orb_false_r. split.
    + intros H. now exists [], [].
    + intros (b & r & E & H). symmetry in E. apply app_eq_nil in E as [_ ->]. exact H.
  - cbn [includesIgnoreCase]. rewrite orb_true_iff, IH. split.
    + intros [H | (b & r & -> & H)]; [now exists [], (u :: t)|].
      now exists (u :: b), r.
    + intros (b & r & E & H). destruct b as [|x b]; cbn [app] in E.
      * left. now rewrite E.
      * injection E as -> ->. right. now exists b, r.
Qed.

(** X5. A submission is a meta post exactly when its title holds the six
    characters of [[meta]] somewhere, each letter in either case. *)
Theorem isMeta_iff (post : Post) :
  isMeta post = true
  <-> exists before b1 m e t a b2 rest,
        post_title post = before ++ [b1; m; e; t; a; b2] ++ rest
        /\ b1 = 91 /\ (m = 109 \/ m = 77) /\ (e = 101 \/ e = 69)
        /\ (t = 116 \/ t = 84) /\ (a = 97 \/ a = 65) /\ b2 = 93.
Proof.
  unfold isMeta. rewrite includesIgnoreCase_iff. split.
  - intros (before & r & E & H).
    destruct r as [|b1 [|m [|e [|t [|a [|b2 rest]]]]]];
      cbn in H; rewrite ?andb_false_r in H; try discriminate.
    exists before, b1, m, e, t, a, b2, rest. split; [exact E|].
    unfold matchesIgnoreCase, inRange in H. cbn in H.
    repeat (apply andb_true_iff in H as [? H]).
    repeat match goal with
           | X : (_ || _) = true |- _ => apply orb_true_iff in X
           end.
    repeat split; lia.
  - intros (before & b1 & m & e & t & a & b2 & rest & E & -> & Hm & He & Ht & Ha & ->).
    exists before, ([91; m; e; t; a; 93] ++ rest). split; [exact E|].
    destruct Hm as [-> | ->], He as [-> | ->], Ht as [-> | ->], Ha as [-> | ->];
      reflexivity.
Qed.

(** ** The configuration of a submission *)

Lemma spanWord_fst_words (s : jsstring) :
  Forall (fun u => isWord u = true) (fst (spanWord s)).
Proof.
  induction s as [|u t IH]; cbn [spanWord]; [constructor|].
  destruct (isWord u) eqn:E; [|constructor].
  destruct (spanWord t) as [w r]. cbn [fst] in *. now constructor.
Qed.

Lemma spanWord_fst_cons (u : Z) (t : jsstring) :
  isWord u = true -> fst (spanWord (u :: t)) <> [].
Proof.
  intros Hu. cbn [spanWord]. rewrite Hu. now destruct (spanWord t).
Qed.

Lemma parseConfigFrom_wordEntries (n : nat) :
  forall s config, wordEntries config -> wordEntries (parseConfigFrom n s config).
Proof.
  induction n as [|n IH]; intros s config Hc; cbn [parseConfigFrom]; [exact Hc|].
  destruct s as [|u t]; [exact Hc|].
  destruct (isWord u) eqn:Hu; [|now apply IH].
  pose proof (spanWord_fst_words (u :: t)) as Hname.
  pose proof (spanWord_fst_cons u t Hu) as Hne.
  destruct (spanWord (u :: t)) as [name r1]. cbn [fst] in Hname, Hne.
  destruct (trimStart r1) as [|c r2]; [now apply IH|].
  destruct (c =? COLON); [|now apply IH].
  pose proof (spanWord_fst_words (trimStart r2)) as Hvalue.
  destruct (spanWord (trimStart r2)) as [value r4]. cbn [fst] in Hvalue.
  destruct value as [|v0 value]; [now apply IH|].
  apply IH. unfold jsstring_eqb. case_bool_decide as Hproto; [exact Hc|].
  apply map_Forall_insert_2; [|exact Hc].
  repeat split; try assumption; discriminate.
Qed.

(** X6. Whatever the text of the submission, every entry of its
    configuration has a key and a value that are non-empty runs of word
    characters, and no entry has the key [__proto__]. *)
Theorem parseConfig_word_entries (input k v : jsstring) :
  parseConfig input !! k = Some v ->
  k <> [] /\ v <> [] /\ k <> PROTO
  /\ Forall (fun u => isWord u = true) k
  /\ Forall (fun u => isWord u = true) v.
Proof.
  intros H.
  assert (Hempty : wordEntries ∅) by apply map_Forall_empty.
  exact (parseConfigFrom_wordEntries (length input) input ∅ Hempty k v H).
Qed.

Lemma trimStart_In (x : Z) (s : jsstring) : In x (trimStart s) -> In x s.
Proof.
  induction s as [|u t IH]; cbn [trimStart]; [tauto|].
  destruct (isSpace u); [intros H; right; now apply IH | tauto].
Qed.

Lemma spanWord_snd_In (x : Z) (s : jsstring) : In x (snd (spanWord s)) -> In x s.
Proof.
  induction s as [|u t IH]; cbn [spanWord]; [tauto|].
  destruct (isWord u); [|tauto].
  destruct (spanWord t) as [w r]. cbn [snd] in *. intros H. right. now apply IH.
Qed.

Lemma parseConfigFrom_no_colon (n : nat) :
  forall s config, ~ In COLON s -> parseConfigFrom n s config = config.
Proof.
  induction n as [|n IH]; intros s config Hs; cbn [parseConfigFrom]; [reflexivity|].
  destruct s as [|u t]; [reflexivity|].
  destruct (isWord u) eqn:Hu.
  - pose proof (spanWord_snd_In COLON (u :: t)) as Hr1.
    destruct (spanWord (u :: t)) as [name r1]. cbn [snd] in Hr1.
    assert (Hn1 : ~ In COLON r1) by tauto.
    pose proof (trimStart_In COLON r1) as Htr.
    destruct (trimStart r1) as [|c r2]; [now apply IH|].
    destruct (Z.eqb_spec c COLON) as [->|_]; [|now apply IH].
    exfalso. apply Hn1, Htr. now left.
  - apply IH. intros H. apply Hs. now right.
Qed.

(** X7. A text without a colon configures nothing: the configuration is
    empty, and so is that of the empty text. *)
Theorem parseConfig_without_colon (input : jsstring) :
  ~ In COLON input -> parseConfig input = ∅.
Proof. apply parseConfigFrom_no_colon. Qed.

Lemma spanWord_run (w r : jsstring) :
  Forall (fun u => isWord u = true) w ->
  match r with [] => True | u :: _ => isWord u = false end ->
  spanWord (w ++ r) = (w, r).
Proof.
  intros Hw Hr. induction Hw as [|u t Hu _ IH]; cbn [app].
  - destruct r as [|x r]; [reflexivity|]. cbn [spanWord]. now rewrite Hr.
  - cbn [spanWord]. now rewrite Hu, IH.
Qed.

Lemma trimStart_run (sp r : jsstring) :
  Forall (fun u => isSpace u = true) sp ->
  match r with [] => True | u :: _ => isSpace u = false end ->
  trimStart (sp ++ r) = r.
Proof.
  intros Hsp Hr. induction Hsp as [|u t Hu _ IH]; cbn [app].
  - destruct r as [|x r]; [reflexivity|]. cbn [trimStart]. now rewrite Hr.
  - cbn [trimStart]. now rewrite Hu.
Qed.

Lemma isSpace_not_word (u : Z) : isSpace u = true -> isWord u = false.
Proof.
  intros Hs. destruct (isWord u) eqn:E; [|reflexivity].
  apply isWord_facts in E. destruct E as [_ E]. congruence.
Qed.

(** X8. A text that begins with [name : value], white space allowed around
    the colon, where name and value are non-empty runs of word characters
    and the value is followed by no word character, yields the entry
    [name := value] and is read on behind the value; when nothing follows
    the configuration is that entry alone. *)
Theorem parseConfig_first_pair (name sp1 sp2 value rest : jsstring)
    (Hname : Forall (fun u => isWord u = true) name) (Hname0 : name <> [])
    (Hproto : name <> PROTO)
    (Hsp1 : Forall (fun u => isSpace u = true) sp1)
    (Hsp2 : Forall (fun u => isSpace u = true) sp2)
    (Hvalue : Forall (fun u => isWord u = true) value) (Hvalue0 : value <> [])
    (Hrest : match rest with [] => True | u :: _ => isWord u = false end) :
  parseConfig (name ++ sp1 ++ COLON :: sp2 ++ value ++ rest)
  = parseConfigFrom (length rest) rest (<[name := value]> ∅)
  /\ (rest = [] ->
      parseConfig (name ++ sp1 ++ COLON :: sp2 ++ value ++ rest) = {[name := value]}).
Proof.
  assert (Hmain : parseConfig (name ++ sp1 ++ COLON :: sp2 ++ value ++ rest)
                  = parseConfigFrom (length rest) rest (<[name := value]> ∅)).
  { unfold parseConfig.
    set (input := name ++ sp1 ++ COLON :: sp2 ++ value ++ rest).
    assert (Hlen : (length rest < length input)%nat).
    { subst input. rewrite !length_app. cbn [length]. rewrite !length_app.
      destruct name; [contradiction | cbn [length]; lia]. }
    destruct (length input) as [|n] eqn:En; [lia|].
    assert (Hspan1 : spanWord input = (name, sp1 ++ COLON :: sp2 ++ value ++ rest)).
    { apply spanWord_run; [exact Hname|].
      destruct sp1 as [|x sp1]; cbn [app]; [reflexivity|].
      inversion Hsp1; subst. now apply isSpace_not_word. }
    assert (Htrim1 : trimStart (sp1 ++ COLON :: sp2 ++ value ++ rest)
                     = COLON :: sp2 ++ value ++ rest).
    { now apply trimStart_run. }
    assert (Htrim2 : trimStart (sp2 ++ value ++ rest) = value ++ rest).
    { apply trimStart_run; [exact Hsp2|].
      destruct value as [|x value]; [contradiction|]. cbn [app].
      inversion Hvalue; subst. now apply isWord_facts. }
    assert (Hspan2 : spanWord (value ++ rest) = (value, rest))
      by now apply spanWord_run.
    cbn [parseConfigFrom].
    destruct input as [|u t] eqn:Ei; [cbn in En; discriminate|].
    assert (Hu : isWord u = true).
    { destruct name as [|x name]; [contradiction|].
      subst input. cbn [app] in Ei. injection Ei as -> _. now inversion Hname. }
    rewrite Hu, Hspan1, Htrim1, Z.eqb_refl, Htrim2, Hspan2.
    destruct value as [|x value]; [contradiction|].
    unfold jsstring_eqb. rewrite bool_decide_eq_false_2 by exact Hproto.
    apply parseConfigFrom_fuel; cbn [length] in *; lia. }
  split; [exact Hmain|].
  intros ->. rewrite Hmain. reflexivity.
Qed.

(** ** More on the duplicate handler *)

Section DeduplicatorMore.

Variable toUpperCase : jsstring -> jsstring.

Local Abbreviation key := (get_body toUpperCase).
Local Abbreviation handle' := (handle toUpperCase).
Local Abbreviation handleAll' := (handleAll toUpperCase).
Local Abbreviation filed' := (filed toUpperCase).
Local Abbreviation earliestUnder' := (earliestUnder toUpperCase).

Lemma remove_duplicate_entry (l : list Comment) (c : Comment) (st : QueryState) :
  In c l -> hasReplies c = false ->
  exists extra,
    removals (remove c duplicate st) = removals st ++ extra
    /\ Forall (duplicateOf l) extra
    /\ complete (remove c duplicate st) = complete st
    /\ incomplete (remove c duplicate st) = incomplete st.
Proof.
  intros Hin Hc. unfold remove. destruct (get_removed c) eqn:E.
  - exists []. rewrite app_nil_r. repeat split. constructor.
  - exists [(comment_id c, duplicate)]. cbn. repeat split.
    constructor; [|constructor]. now exists c.
Qed.

Lemma handle_duplicates (l : list Comment) (c : Comment)
    (m : gmap jsstring Comment) (st : QueryState) :
  filed' l m ->
  exists extra,
    removals (snd (handle' c (m, st))) = removals st ++ extra
    /\ Forall (duplicateOf (l ++ [c])) extra
    /\ complete (snd (handle' c (m, st))) = complete st
    /\ incomplete (snd (handle' c (m, st))) = incomplete st.
Proof.
  intros Hm.
  assert (Hnone : exists extra,
             removals st = removals st ++ extra
             /\ Forall (duplicateOf (l ++ [c])) extra
             /\ complete st = complete st /\ incomplete st = incomplete st).
  { exists []. rewrite app_nil_r. repeat split. constructor. }
  unfold handle. destruct (m !! key c) as [existing|] eqn:E; [|exact Hnone].
  destruct (Hm _ _ E) as [_ Hin].
  destruct (hasReplies c) eqn:Hc; cbn [negb andb]; rewrite ?andb_false_r, ?andb_true_r.
  - destruct (hasReplies existing) eqn:He; cbn [negb snd]; [exact Hnone|].
    apply remove_duplicate_entry; [apply in_or_app; now left | exact He].
  - destruct (get_created existing <? get_created c); cbn [snd].
    + apply remove_duplicate_entry; [apply in_or_app; right; now left | exact Hc].
    + destruct (hasReplies existing) eqn:He; cbn [negb snd]; [exact Hnone|].
      apply remove_duplicate_entry; [apply in_or_app; now left | exact He].
Qed.

(** X9. Whatever the sibling group, the handler only ever calls
    [remove('duplicate')], on siblings of the group that have no replies
    and are not flagged removed; a sibling with replies is never removed,
    and the recorded sequences are left as they are. *)
Theorem handler_removes_only_childless (siblings : list Comment) (st : QueryState) :
  exists extra,
    removals (snd (handleAll' siblings (∅, st))) = removals st ++ extra
    /\ Forall (duplicateOf siblings) extra
    /\ complete (snd (handleAll' siblings (∅, st))) = complete st
    /\ incomplete (snd (handleAll' siblings (∅, st))) = incomplete st.
Proof.
  induction siblings as [|c l IH] using rev_ind.
  - exists []. cbn. rewrite app_nil_r. repeat split. constructor.
  - destruct IH as (e1 & Hr & He1 & Hc & Hi).
    pose proof (handleAll_filed toUpperCase l st) as Hf.
    rewrite (handleAll_app toUpperCase). cbn [handleAll fold_left].
    fold (handleAll' l (∅, st)).
    destruct (handleAll' l (∅, st)) as [m st1]. cbn [fst snd] in *.
    destruct (handle_duplicates l c m st1 Hf) as (e2 & Hr2 & He2 & Hc2 & Hi2).
    exists (e1 ++ e2). rewrite Hr2, Hr, Hc2, Hc, Hi2, Hi, app_assoc.
    repeat split. apply Forall_app. split; [|exact He2].
    eapply Forall_impl; [exact He1|].
    intros e (x & Hx & Hrest). exists x. split; [apply in_or_app; now left | exact Hrest].
Qed.

(** X10. Two siblings with the same key that both have replies both stay:
    the one that arrives first is retained, the other is neither recorded
    nor removed, whatever their creation times. *)
Theorem siblings_with_replies_both_stay (a b : Comment)
    (m : gmap jsstring Comment) (st : QueryState)
    (Hkey : key a = key b)
    (Ha : hasReplies a = true) (Hb : hasReplies b = true)
    (Hfresh : m !! key a = None) :
  handleAll' [a; b] (m, st) = (<[key a := a]> m, st).
Proof.
  rewrite !(handleAll_cons toUpperCase), (handle_fresh toUpperCase a m st Hfresh).
  unfold handleAll. cbn [fold_left]. unfold handle.
  rewrite <- Hkey, lookup_insert_eq, Ha, Hb. cbn [negb]. now rewrite andb_false_r.
Qed.

(** X11. Of two siblings with the same key, one with replies and one
    without, the one with replies is retained in either order of arrival.
    The childless one is removed when it arrives first, and when it
    arrives second only if it was created strictly later. *)
Theorem sibling_with_replies_is_retained (a b : Comment)
    (m : gmap jsstring Comment) (st : QueryState)
    (Hkey : key a = key b)
    (Ha : hasReplies a = true) (Hb : hasReplies b = false)
    (Hfresh : m !! key a = None) :
  handleAll' [b; a] (m, st) = (<[key a := a]> m, remove b duplicate st)
  /\ handleAll' [a; b] (m, st)
     = (<[key a := a]> m,
        if get_created a <? get_created b then remove b duplicate st else st).
Proof.
  rewrite !(handleAll_cons toUpperCase). split.
  - rewrite (handle_fresh toUpperCase b m st) by (now rewrite <- Hkey).
    unfold handleAll. cbn [fold_left]. unfold handle.
    rewrite <- Hkey, lookup_insert_eq, Ha, Hb. cbn [negb].
    now rewrite andb_false_r, insert_insert_eq.
  - rewrite (handle_fresh toUpperCase a m st Hfresh).
    unfold handleAll. cbn [fold_left]. unfold handle.
    rewrite <- Hkey, lookup_insert_eq, Ha, Hb. cbn [negb].
    rewrite andb_true_r. now destruct (get_created a <? get_created b).
Qed.

Lemma handle_earliestUnder (k : jsstring) (l : list Comment) (x : Comment)
    (m : gmap jsstring Comment) (st : QueryState) :
  (forall c, In c (l ++ [x]) -> key c = k -> hasReplies c = false) ->
  earliestUnder' k l m -> earliestUnder' k (l ++ [x]) (fst (handle' x (m, st))).
Proof.
  intros Hchildless Hinv. unfold earliestUnder in *.
  destruct (decide (key x = k)) as [Hk|Hk].
  - assert (Hx : hasReplies x = false)
      by (apply Hchildless; [apply in_or_app; right; now left | exact Hk]).
    unfold handle. rewrite Hk. destruct (m !! k) as [w|] eqn:E.
    + destruct Hinv as (Hw & Hkw & Hmin).
      assert (Hwc : hasReplies w = false)
        by (apply Hchildless; [apply in_or_app; now left | exact Hkw]).
      rewrite Hx, Hwc. cbn [negb]. rewrite andb_true_r.
      destruct (Z.ltb_spec (get_created w) (get_created x)) as [Hlt|Hge]; cbn [fst].
      * rewrite E. split; [apply in_or_app; now left|]. split; [exact Hkw|].
        intros c Hc Hkc. apply in_app_or in Hc as [Hc|[<-|[]]]; [now apply Hmin | lia].
      * rewrite lookup_insert_eq. split; [apply in_or_app; right; now left|].
        split; [exact Hk|].
        intros c Hc Hkc. apply in_app_or in Hc as [Hc|[<-|[]]]; [|lia].
        specialize (Hmin c Hc Hkc). lia.
    + cbn [fst]. rewrite lookup_insert_eq. split; [apply in_or_app; right; now left|].
      split; [exact Hk|].
      intros c Hc Hkc. apply in_app_or in Hc as [Hc|[<-|[]]]; [|lia].
      now destruct (Hinv c Hc).
  - destruct (handle_other toUpperCase x m st k Hk) as [-> _].
    destruct (m !! k) as [w|].
    + destruct Hinv as (Hw & Hkw & Hmin). split; [apply in_or_app; now left|].
      split; [exact Hkw|].
      intros c Hc Hkc. apply in_app_or in Hc as [Hc|[<-|[]]]; [now apply Hmin|].
      contradiction.
    + intros c Hc. apply in_app_or in Hc as [Hc|[<-|[]]]; [now apply Hinv | exact Hk].
Qed.

(** X12. When the siblings that share a key have no replies, however many
    they are and in whatever order they arrive among the others, the one
    the handler retains under that key is one of them created no later
    than any other. *)
Theorem handler_retains_an_earliest (siblings : list Comment) (k : jsstring)
    (st : QueryState) (c0 : Comment)
    (Hchildless : forall c, In c siblings -> key c = k -> hasReplies c = false)
    (Hsome : In c0 siblings) (Hkey0 : key c0 = k) :
  exists w,
    fst (handleAll' siblings (∅, st)) !! k = Some w
    /\ In w siblings /\ key w = k
    /\ forall c, In c siblings -> key c = k -> get_created w <= get_created c.
Proof.
  assert (Hinv : earliestUnder' k siblings (fst (handleAll' siblings (∅, st)))).
  { clear c0 Hsome Hkey0.
    induction siblings as [|x l IH] using rev_ind.
    - unfold earliestUnder. cbn. rewrite lookup_empty. intros c [].
    - rewrite (handleAll_app toUpperCase). cbn [handleAll fold_left].
      fold (handleAll' l (∅, st)).
      destruct (handleAll' l (∅, st)) as [m st1] eqn:E. cbn [fst] in IH.
      apply handle_earliestUnder; [exact Hchildless|].
      apply IH. intros c Hc. apply Hchildless, in_or_app. now left. }
  unfold earliestUnder in Hinv.
  destruct (fst (handleAll' siblings (∅, st)) !! k) as [w|].
  - now exists w.
  - exfalso. exact (Hinv c0 Hsome Hkey0).
Qed.

End DeduplicatorMore.

(** ** More on the sequence collector *)

Lemma appendState_empty (st : QueryState) : appendState st emptyState = st.
Proof. destruct st. unfold appendState. cbn. now rewrite !app_nil_r. Qed.

Lemma appendState_assoc (a b c : QueryState) :
  appendState a (appendState b c) = appendState (appendState a b) c.
Proof. unfold appendState. cbn. now rewrite !app_assoc. Qed.

Lemma remove_frame (c : Comment) (reason : Reason) (st : QueryState) :
  remove c reason st = appendState st (remove c reason emptyState).
Proof.
  unfold remove. destruct (get_removed c); [now rewrite appendState_empty|].
  unfold appendState. cbn. now rewrite !app_nil_r.
Qed.

Section CollectorMore.

Variable toUpperCase : jsstring -> jsstring.
Variable ToNumber : jsstring -> number.
Variable post : Post.

Local Abbreviation type := (OuijaComment_type toUpperCase).
Local Abbreviation body := (get_body toUpperCase).
Local Abbreviation collect := (collectResponses toUpperCase ToNumber post).
Local Abbreviation handle' := (handle toUpperCase).

Lemma handle_frame (c : Comment) (m : gmap jsstring Comment) (st : QueryState) :
  handle' c (m, st)
  = (fst (handle' c (m, emptyState)),
     appendState st (snd (handle' c (m, emptyState)))).
Proof.
  unfold handle. repeat case_match; cbn [fst snd];
    rewrite ?appendState_empty; try reflexivity; f_equal; apply remove_frame.
Qed.

Lemma visitReply_frame (comment r : Comment) (p : list jsstring) :
  (forall letters st,
      collect r letters st
      = (fst (collect r letters emptyState),
         appendState st (snd (collect r letters emptyState)))) ->
  forall has dup st d,
    visitReply toUpperCase (fun reply => collect reply p) comment
      (has, (dup, appendState st d)) r
    = let x := visitReply toUpperCase (fun reply => collect reply p) comment
                 (has, (dup, d)) r in
      (fst x, (fst (snd x), appendState st (snd (snd x)))).
Proof.
  intros Hr has dup st d. unfold visitReply.
  destruct (jsstring_eqb (comment_author r) (comment_author comment)); cbn zeta.
  - cbn [fst snd].
    now rewrite (remove_frame r self_reply (appendState st d)),
      (remove_frame r self_reply d), <- appendState_assoc.
  - rewrite (Hr p (appendState st d)), (Hr p d).
    destruct (collect r p emptyState) as [found d1]. cbn [fst snd].
    rewrite (handle_frame r dup (appendState (appendState st d) d1)),
      (handle_frame r dup (appendState d d1)).
    destruct (handle' r (dup, emptyState)) as [dup' d2]. cbn [fst snd].
    now rewrite <- !appendState_assoc.
Qed.

(** The loop over the replies, from a state [st], does what it does from
    the empty state and appends it to [st]. *)
Lemma visitReplies_frame (comment : Comment) (p : list jsstring)
    (replies : list Comment) :
  Forall (fun r => forall letters st,
            collect r letters st
            = (fst (collect r letters emptyState),
               appendState st (snd (collect r letters emptyState))))
         replies ->
  forall has dup st d,
    fold_left (visitReply toUpperCase (fun reply => collect reply p) comment)
      replies (has, (dup, appendState st d))
    = let r := fold_left (visitReply toUpperCase (fun reply => collect reply p) comment)
                 replies (has, (dup, d)) in
      (fst r, (fst (snd r), appendState st (snd (snd r)))).
Proof.
  induction 1 as [|r l Hr Hl IH]; intros has dup st d; cbn [fold_left]; [reflexivity|].
  rewrite (visitReply_frame comment r p Hr has dup st d). cbn zeta.
  destruct (visitReply toUpperCase (fun reply => collect reply p) comment
              (has, (dup, d)) r) as [h1 [m1 d1]].
  cbn [fst snd]. apply IH.
Qed.

Lemma collectResponses_frame (comment : Comment) :
  forall letters st,
    collect comment letters st
    = (fst (collect comment letters emptyState),
       appendState st (snd (collect comment letters emptyState))).
Proof.
  induction comment as [comment IH] using Comment_tree_ind. intros letters st.
  rewrite !(collectResponses_eq toUpperCase ToNumber post). destruct (type comment).
  - cbn zeta.
    pose proof (visitReplies_frame comment (letters ++ [body comment])
                  (comment_replies comment) IH false ∅ st emptyState) as H.
    rewrite appendState_empty in H. rewrite H. cbn zeta.
    destruct (fold_left _ (comment_replies comment) (false, (∅, emptyState)))
      as [has [dup d]]. cbn [fst snd].
    destruct has; [reflexivity|]. f_equal.
    unfold pushIncomplete, appendState. cbn. now rewrite <- ?app_assoc.
  - destruct (tooShort ToNumber post letters); cbn [fst snd];
      [now rewrite appendState_empty|].
    f_equal. unfold pushComplete, appendState. cbn. now rewrite ?app_nil_r.
  - cbn [fst snd]. f_equal. apply remove_frame.
Qed.

(** X13. A call of the collector appends to the state it is given what
    the same call records from the empty state: what it records, and
    whether it reports a sequence, depend on the comment and the letters
    only, never on what was recorded or removed before. *)
Theorem collectResponses_appends (comment : Comment) (letters : list jsstring)
    (st : QueryState) :
  let fresh := collect comment letters emptyState in
  collect comment letters st = (fst fresh, appendState st (snd fresh))
  /\ complete (snd (collect comment letters st)) = complete st ++ complete (snd fresh)
  /\ incomplete (snd (collect comment letters st))
     = incomplete st ++ incomplete (snd fresh)
  /\ removals (snd (collect comment letters st)) = removals st ++ removals (snd fresh).
Proof.
  intros fresh. subst fresh.
  rewrite (collectResponses_frame comment letters st). cbn [snd appendState complete
    incomplete removals]. repeat split.
Qed.

Lemma sameSequences_refl (st : QueryState) : sameSequences st st.
Proof. reflexivity. Qed.

Lemma sameSequences_append (st st' d : QueryState) :
  sameSequences st st' -> sameSequences (appendState st d) (appendState st' d).
Proof.
  unfold sameSequences, spelled, appendState. cbn. intros [= H1 H2].
  now rewrite !List.map_app, H1, H2.
Qed.

Lemma sameSequences_remove (c : Comment) (reason : Reason) (st st' : QueryState) :
  sameSequences st st' -> sameSequences (remove c reason st) st'.
Proof. unfold remove. now destruct (get_removed c). Qed.

Lemma visitReply_self (f : Comment -> QueryState -> bool * QueryState)
    (comment r : Comment) (has : bool) (dup : gmap jsstring Comment) (st : QueryState) :
  jsstring_eqb (comment_author r) (comment_author comment) = true ->
  visitReply toUpperCase f comment (has, (dup, st)) r
  = (has, (dup, remove r self_reply st)).
Proof. intros E. unfold visitReply. now rewrite E. Qed.

Lemma visitReply_other (f : Comment -> QueryState -> bool * QueryState)
    (comment r : Comment) (has : bool) (dup : gmap jsstring Comment) (st : QueryState) :
  jsstring_eqb (comment_author r) (comment_author comment) = false ->
  visitReply toUpperCase f comment (has, (dup, st)) r
  = (has || fst (f r st), handle' r (dup, snd (f r st))).
Proof. intros E. unfold visitReply. rewrite E. now destruct (f r st). Qed.

Lemma visitReplies_without_self (comment comment' : Comment) (p : list jsstring)
    (replies : list Comment) :
  comment_author comment' = comment_author comment ->
  forall has dup st st',
    sameSequences st st' ->
    let f := visitReply toUpperCase (fun reply => collect reply p) in
    let r := fold_left (f comment) replies (has, (dup, st)) in
    let r' := fold_left (f comment')
                (List.filter
                   (fun reply =>
                      negb (jsstring_eqb (comment_author reply) (comment_author comment)))
                   replies)
                (has, (dup, st')) in
    fst r = fst r' /\ fst (snd r) = fst (snd r')
    /\ sameSequences (snd (snd r)) (snd (snd r')).
Proof.
  intros Hauthor. induction replies as [|x l IH]; intros has dup st st' Hsame;
    cbn zeta; cbn [fold_left List.filter].
  { cbn [fst snd]. split; [reflexivity|]. split; [reflexivity | exact Hsame]. }
  destruct (jsstring_eqb (comment_author x) (comment_author comment)) eqn:E;
    cbn [negb].
  - rewrite (visitReply_self _ comment x has dup st E).
    apply IH. now apply sameSequences_remove.
  - cbn [fold_left].
    rewrite (visitReply_other _ comment x has dup st E).
    rewrite (visitReply_other _ comment' x has dup st') by (now rewrite Hauthor).
    rewrite (collectResponses_frame x p st), (collectResponses_frame x p st').
    destruct (collect x p emptyState) as [found d1]. cbn [fst snd].
    rewrite (handle_frame x dup (appendState st d1)),
      (handle_frame x dup (appendState st' d1)).
    apply IH. now apply sameSequences_append, sameSequences_append.
Qed.

(** X14. The replies a comment gets from its own author never contribute:
    the call reports the same and records complete and incomplete
    sequences with the same letters, comments and scores as on the comment
    without those replies. *)
Theorem self_replies_never_contribute (comment : Comment) (letters : list jsstring)
    (st : QueryState) :
  let others :=
    List.filter
      (fun reply => negb (jsstring_eqb (comment_author reply) (comment_author comment)))
      (comment_replies comment) in
  fst (collect comment letters st)
  = fst (collect (withReplies comment others) letters st)
  /\ sameSequences (snd (collect comment letters st))
       (snd (collect (withReplies comment others) letters st)).
Proof.
  intros others. rewrite !(collectResponses_eq toUpperCase ToNumber post).
  change (type (withReplies comment others)) with (type comment).
  change (body (withReplies comment others)) with (body comment).
  change (comment_replies (withReplies comment others)) with others.
  destruct (type comment);
    [| destruct (tooShort ToNumber post letters);
       (split; [reflexivity
               | unfold sameSequences, spelled; cbn; rewrite ?List.map_app; reflexivity])
     | split; [reflexivity | unfold sameSequences, spelled, remove; cbn; reflexivity]].
  cbn zeta.
  pose proof (visitReplies_without_self comment (withReplies comment others)
                (letters ++ [body comment]) (comment_replies comment) eq_refl
                false ∅ st st (sameSequences_refl st)) as H.
  cbn zeta in H. fold others in H.
  destruct (fold_left _ (comment_replies comment) _) as [has [dup st1]].
  destruct (fold_left _ others _) as [has' [dup' st1']].
  cbn [fst snd] in *. destruct H as (-> & _ & Hs).
  split; [reflexivity|].
  destruct has'; [exact Hs|].
  unfold sameSequences, spelled, pushIncomplete in *. cbn in *.
  injection Hs as Hc Hi. now rewrite !List.map_app, Hc, Hi.
Qed.

End CollectorMore.

(** ** What a run records *)

Lemma handle_keeps_sequences (toUpperCase : jsstring -> jsstring) (c : Comment)
    (m : gmap jsstring Comment) (st : QueryState) :
  complete (snd (handle toUpperCase c (m, st))) = complete st
  /\ incomplete (snd (handle toUpperCase c (m, st))) = incomplete st.
Proof.
  unfold handle, remove. repeat case_match; cbn [snd complete incomplete]; now split.
Qed.

Lemma remove_keeps_sequences (c : Comment) (reason : Reason) (st : QueryState) :
  complete (remove c reason st) = complete st
  /\ incomplete (remove c reason st) = incomplete st.
Proof. unfold remove. now destruct (get_removed c). Qed.

Section RunInvariants.

Variable toUpperCase : jsstring -> jsstring.
Variable ToNumber : jsstring -> number.
Variable post : Post.

Local Abbreviation type := (OuijaComment_type toUpperCase).
Local Abbreviation body := (get_body toUpperCase).
Local Abbreviation collect := (collectResponses toUpperCase ToNumber post).
Local Abbreviation handle' := (handle toUpperCase).
Local Abbreviation goodComplete' := (goodComplete toUpperCase ToNumber post).
Local Abbreviation goodIncomplete' := (goodIncomplete toUpperCase).
Local Abbreviation goodState' := (goodState toUpperCase ToNumber post).

Lemma letter_body_oneSymbol (c : Comment) :
  type c = Letter -> oneSymbol (body c).
Proof.
  unfold OuijaComment_type, get_body, oneSymbol.
  destruct (truthy (comment_banned_by c)); [discriminate|].
  destruct (Nat.eqb_spec (countSymbols (OuijaComment_body toUpperCase c)) 1) as [H|H].
  - intros _. destruct (OuijaComment_body toUpperCase c); [discriminate | exact H].
  - destruct (goodbyeRegex_test _); discriminate.
Qed.

Lemma goodState_shorter (p : list jsstring) (b : jsstring) (st : QueryState) :
  oneSymbol b -> goodState' (p ++ [b]) st -> goodState' p st.
Proof.
  intros Hb [Hc Hi]. split.
  - eapply Forall_impl; [exact Hc|].
    intros r ((rest & E & Hrest) & Ht & Hs). split; [|now split].
    exists (b :: rest). rewrite E, <- app_assoc. split; [reflexivity | now constructor].
  - eapply Forall_impl; [exact Hi|].
    intros r ((rest & E & Hrest) & Ht & Hs). split; [|now split].
    exists (b :: rest). rewrite E, <- app_assoc. split; [reflexivity | now constructor].
Qed.

Lemma goodState_append (p : list jsstring) (st d : QueryState) :
  goodState' p st -> goodState' p d -> goodState' p (appendState st d).
Proof.
  intros [H1 H2] [H3 H4]. split; cbn; apply Forall_app; now split.
Qed.

Lemma goodState_sequences (p : list jsstring) (st st' : QueryState) :
  complete st' = complete st -> incomplete st' = incomplete st ->
  goodState' p st -> goodState' p st'.
Proof. unfold goodState'. now intros -> ->. Qed.

Lemma visitReplies_good (comment : Comment) (p : list jsstring)
    (replies : list Comment) :
  Forall (fun r => forall letters, goodState' letters (snd (collect r letters emptyState)))
         replies ->
  forall acc,
    goodState' p (snd (snd acc)) ->
    goodState' p
      (snd (snd (fold_left
                   (visitReply toUpperCase (fun reply => collect reply p) comment)
                   replies acc))).
Proof.
  induction 1 as [|r l Hr Hl IH]; intros [has [dup st]] Hst; cbn [fold_left];
    [exact Hst|].
  apply IH. unfold visitReply.
  destruct (jsstring_eqb (comment_author r) (comment_author comment)); cbn [snd].
  - destruct (remove_keeps_sequences r self_reply st) as [H1 H2].
    exact (goodState_sequences p st _ H1 H2 Hst).
  - rewrite (collectResponses_frame toUpperCase ToNumber post r p st).
    specialize (Hr p). destruct (collect r p emptyState) as [found d]. cbn [snd] in *.
    destruct (handle_keeps_sequences toUpperCase r dup (appendState st d)) as [H1 H2].
    apply (goodState_sequences p (appendState st d) _ H1 H2).
    now apply goodState_append.
Qed.

Lemma collectResponses_good (comment : Comment) :
  forall letters, goodState' letters (snd (collect comment letters emptyState)).
Proof.
  induction comment as [comment IH] using Comment_tree_ind. intros letters.
  rewrite (collectResponses_eq toUpperCase ToNumber post).
  destruct (type comment) eqn:Ht.
  - cbn zeta. pose proof (letter_body_oneSymbol comment Ht) as Hb.
    pose proof (visitReplies_good comment (letters ++ [body comment])
                  (comment_replies comment) IH (false, (∅, emptyState))) as H.
    specialize (H ltac:(split; constructor)).
    destruct (fold_left _ _ _) as [has [dup st1]]. cbn [snd] in *.
    apply (goodState_shorter letters (body comment) st1 Hb) in H.
    destruct has; [exact H|].
    destruct H as [Hc Hi]. split; [exact Hc|]. cbn [pushIncomplete incomplete].
    apply Forall_app. split; [exact Hi|]. constructor; [|constructor].
    split; [|now split]. exists []. cbn. split; [reflexivity | constructor].
  - destruct (tooShort ToNumber post letters) eqn:Hs; cbn [snd];
      [split; constructor|].
    split; [|constructor]. cbn. constructor; [|constructor].
    split; [|now split]. exists []. cbn. rewrite app_nil_r.
    split; [reflexivity | constructor].
  - cbn [snd]. unfold remove. destruct (get_removed comment); split; constructor.
Qed.

Lemma collectAll_good :
  goodState' [] (collectAll toUpperCase ToNumber post).
Proof.
  unfold collectAll.
  assert (H : forall l acc, goodState' [] (snd acc) ->
              goodState' [] (snd (fold_left (visitComment toUpperCase ToNumber post) l acc))).
  { induction l as [|c l IH]; intros [dup st] Hst; cbn [fold_left]; [exact Hst|].
    apply IH. unfold visitComment.
    assert (Hcollect : goodState' []
              (snd (handle' c (dup, snd (collect c [] st))))).
    { rewrite (collectResponses_frame toUpperCase ToNumber post c [] st). cbn [snd].
      destruct (handle_keeps_sequences toUpperCase c dup
                  (appendState st (snd (collect c [] emptyState)))) as [H1 H2].
      apply (goodState_sequences [] _ _ H1 H2), goodState_append;
        [exact Hst | apply collectResponses_good]. }
    destruct (type c); try exact Hcollect. cbn [snd].
    destruct (negb (isMeta post) && negb (isModPost post)); [|exact Hst].
    destruct (remove_keeps_sequences c invalid st) as [H1 H2].
    exact (goodState_sequences [] st _ H1 H2 Hst). }
  apply H. split; constructor.
Qed.

(** X15. Every complete sequence a run records is made of one-symbol
    letters, ends in a comment classified Goodbye and is not shorter than
    a configured minimum; so is the winner, which is one of them. *)
Theorem complete_sequences_are_well_formed (duration : jsstring -> option Z)
    (COMMENT_SCORE_THRESHOLD : option jsstring) :
  (forall r, In r (complete (collectAll toUpperCase ToNumber post)) ->
     Forall oneSymbol (letters r)
     /\ type (goodbye r) = Goodbye
     /\ tooShort ToNumber post (letters r) = false)
  /\ (forall now r,
        fst (run toUpperCase ToNumber duration COMMENT_SCORE_THRESHOLD post now) = Some r ->
        In r (complete (collectAll toUpperCase ToNumber post))).
Proof.
  split.
  - intros r Hr. destruct collectAll_good as [Hc _].
    rewrite List.Forall_forall in Hc.
    destruct (Hc r Hr) as ((rest & E & Hrest) & Ht & Hs).
    cbn in E. split; [now rewrite E | now split].
  - intros now r. unfold run, getResponse. cbn [fst].
    destruct (hasTimeLeft _ _ _ _); [discriminate|].
    destruct (getTopCompletedResponse _) as [t|] eqn:E; [|discriminate].
    destruct (js_ge _ _); [|discriminate]. intros [= <-].
    apply getTopCompletedResponse_iff in E as (l1 & l2 & -> & _). apply in_elt.
Qed.

(** X16. Every incomplete sequence a run records is made of one-symbol
    letters, has at least one, and ends with the body of its last comment,
    which is classified Letter. *)
Theorem incomplete_sequences_are_well_formed (r : IncompleteResponse) :
  In r (incomplete (collectAll toUpperCase ToNumber post)) ->
  Forall oneSymbol (partial_letters r)
  /\ (exists init, partial_letters r = init ++ [body (lastComment r)])
  /\ type (lastComment r) = Letter.
Proof.
  intros Hr. destruct collectAll_good as [_ Hi].
  rewrite List.Forall_forall in Hi.
  destruct (Hi r Hr) as ((rest & E & Hrest) & Hb & Ht).
  split; [|split; [now exists rest | exact Ht]].
  cbn in E. rewrite E. apply Forall_app. split; [exact Hrest|].
  constructor; [exact Hb | constructor].
Qed.

(** X17. A thread without branches, Letters answered one after the other
    by someone else down to a Goodbye, records one complete sequence, the
    letters of the thread in order with that Goodbye, and nothing else,
    unless the sequence is too short for the configuration. *)
Theorem thread_spells_its_letters (c g : Comment) (l : list jsstring)
    (Hthread : spells toUpperCase c l g) :
  forall before st,
    tooShort ToNumber post (before ++ l) = false ->
    collect c before st
    = (true, pushComplete {| letters := before ++ l; goodbye := g |} st).
Proof.
  induction Hthread as [g Hg | c r g l Hc Hr Hauthor Hthread IH]; intros before st Hs.
  - rewrite (collectResponses_eq toUpperCase ToNumber post), Hg.
    rewrite app_nil_r in *. now rewrite Hs.
  - rewrite (collectResponses_eq toUpperCase ToNumber post), Hc, Hr. cbn zeta.
    cbn [fold_left]. unfold visitReply.
    unfold jsstring_eqb. rewrite bool_decide_eq_false_2 by exact Hauthor.
    rewrite (IH (before ++ [body c]) st)
      by (now rewrite <- app_assoc).
    unfold handle. rewrite lookup_empty. cbn [orb].
    now rewrite <- app_assoc.
Qed.

Lemma visitComment_withComments (l : list Comment) :
  visitComment toUpperCase ToNumber (withComments post l)
  = visitComment toUpperCase ToNumber post.
Proof. reflexivity. Qed.

(** X18. On a meta or moderator submission the top-level comments
    classified Invalid are ignored altogether: the run ends in the state
    it reaches without them. *)
Theorem meta_ignores_top_level_invalid :
  isMeta post || isModPost post = true ->
  collectAll toUpperCase ToNumber post
  = collectAll toUpperCase ToNumber
      (withComments post
         (List.filter
            (fun c => match type c with Invalid => false | _ => true end)
            (post_comments post))).
Proof.
  intros Hmeta. unfold collectAll.
  rewrite visitComment_withComments.
  change (post_comments (withComments post ?l)) with l.
  assert (Hguard : negb (isMeta post) && negb (isModPost post) = false)
    by (revert Hmeta; destruct (isMeta post), (isModPost post); cbn; congruence).
  generalize (∅ : gmap jsstring Comment, emptyState).
  induction (post_comments post) as [|c l IH]; intros acc; [reflexivity|].
  cbn [fold_left List.filter].
  destruct (type c) eqn:Ht; cbn [fold_left]; rewrite IH; try reflexivity.
  f_equal. unfold visitComment. destruct acc. now rewrite Ht, Hguard.
Qed.

End RunInvariants.

(** ** More on the resolution policy *)

Section ResolutionMore.

Variable toUpperCase : jsstring -> jsstring.
Variable ToNumber : jsstring -> number.
Variable duration : jsstring -> option Z.
Variable COMMENT_SCORE_THRESHOLD : option jsstring.
Variable post : Post.

Local Abbreviation getResponse' :=
  (getResponse toUpperCase ToNumber duration COMMENT_SCORE_THRESHOLD post).
Local Abbreviation hasTimeLeft' := (hasTimeLeft toUpperCase duration post).
Local Abbreviation thresholdNumber' :=
  (thresholdNumber ToNumber COMMENT_SCORE_THRESHOLD post).
Local Abbreviation run' :=
  (run toUpperCase ToNumber duration COMMENT_SCORE_THRESHOLD post).

Lemma js_ge_NaN (a : number) : js_ge a NaN = false.
Proof. now destruct a. Qed.

(** X19. When the threshold does not read as a number nothing ever wins,
    whatever the scores and the time; this is the case when the
    submission configures no minimum score and the global threshold is
    not set. *)
Theorem no_winner_without_threshold :
  (thresholdNumber' = NaN ->
   forall now st, getResponse' now st = None /\ answered (snd (run' now)) = false)
  /\ (config post !! MINSCORE = None -> COMMENT_SCORE_THRESHOLD = None ->
      thresholdNumber' = NaN).
Proof.
  split.
  - intros Hnan.
    assert (H : forall now st, getResponse' now st = None).
    { intros now st. unfold getResponse.
      destruct (hasTimeLeft' now); [reflexivity|].
      destruct (getTopCompletedResponse st); [|reflexivity].
      now rewrite Hnan, js_ge_NaN. }
    intros now st. split; [apply H|]. unfold run. cbn [snd answered]. now rewrite H.
  - intros Hc Ht. unfold thresholdNumber, threshold. now rewrite Hc, Ht.
Qed.

(** X20. Once the wait is over it stays over: if the evaluation is not
    pending at some time it is not pending at any later time, and the
    response is then the same at both times. *)
Theorem wait_is_over_for_good (now later : Z) (st : QueryState)
    (Hover : hasTimeLeft' now = false) (Hlater : now <= later) :
  hasTimeLeft' later = false
  /\ getResponse' later st = getResponse' now st.
Proof.
  assert (H : hasTimeLeft' later = false).
  { revert Hover. unfold hasTimeLeft.
    destruct (truthy (config post !! TIME)); [|reflexivity].
    destruct (config post !! TIME) as [t|]; [|reflexivity].
    destruct (duration (PT ++ toUpperCase t)) as [d|]; [|reflexivity].
    rewrite !Z.ltb_ge. lia. }
  split; [exact H|]. unfold getResponse. now rewrite H, Hover.
Qed.

End ResolutionMore.

(** ** More on the summary page *)

Lemma summaryEntry_not_empty (EOL : jsstring) (query : OuijaQuery) :
  summaryEntry EOL query <> [].
Proof. unfold summaryEntry. discriminate. Qed.

Lemma concat_nil_iff {A : Type} (l : list (list A)) :
  List.concat l = [] <-> Forall (fun x => x = []) l.
Proof.
  induction l as [|x l IH]; cbn; [split; [constructor | reflexivity]|].
  split.
  - intros H. apply app_eq_nil in H as [-> H]. constructor; [reflexivity | now apply IH].
  - intros H. inversion H; subst. cbn. now apply IH.
Qed.

(** X21. The summary page is empty exactly when every submission of the
    batch has a winner; an empty batch gives an empty page. *)
Theorem summary_empty_iff_all_answered (EOL : jsstring) (queries : list OuijaQuery) :
  processPending EOL queries = []
  <-> Forall (fun query => answered query = true) queries.
Proof.
  rewrite processPending_listed, concat_nil_iff, List.Forall_map.
  assert (Hstep : forall q, listed EOL q = [] <-> answered q = true).
  { intros q. unfold listed. destruct (answered q); [easy|].
    split; [intros H; now apply summaryEntry_not_empty in H | discriminate]. }
  rewrite !List.Forall_forall. split.
  - intros H q Hq. apply Hstep, H. now apply in_rev in Hq.
  - intros H q Hq. apply Hstep, H. now apply in_rev.
Qed.

(** ** Flair and notification *)

Lemma flairText_head (response : CompleteResponse) :
  exists rest, flairText response = OUIJA_SAYS ++ rest.
Proof.
  unfold flairText. set (answer := List.concat (letters response)).
  destruct (64 <? length (OUIJA_SAYS ++ answer))%nat.
  - exists (firstn 49 answer ++ ELLIPSIS).
    rewrite firstn_app. change (61 - length OUIJA_SAYS)%nat with 49%nat.
    change (firstn 61 OUIJA_SAYS) with OUIJA_SAYS. now rewrite <- app_assoc.
  - now exists answer.
Qed.

(** X22. The flair of a winner is [Ouija says: ] followed by the letters;
    it never has more than 64 code units: a longer text is cut to its
    first 61 code units followed by three dots, 64 in all, and a text of
    at most 64 is kept whole. *)
Theorem flairText_fits (response : CompleteResponse) :
  let text := OUIJA_SAYS ++ List.concat (letters response) in
  (length (flairText response) <= 64)%nat
  /\ ((length text <= 64)%nat -> flairText response = text)
  /\ ((64 < length text)%nat ->
      length (flairText response) = 64%nat
      /\ flairText response = firstn 61 text ++ ELLIPSIS)
  /\ (exists rest, flairText response = OUIJA_SAYS ++ rest).
Proof.
  intros text. unfold flairText. fold text.
  destruct (Nat.ltb_spec 64 (length text)) as [Hlong|Hshort].
  - assert (Hlen : length (firstn 61 text ++ ELLIPSIS) = 64%nat).
    { rewrite length_app, length_firstn. cbn [length ELLIPSIS]. lia. }
    split; [lia|]. split; [lia|]. split; [now split|].
    pose proof (flairText_head response) as H. unfold flairText in H. fold text in H.
    now rewrite (proj2 (Nat.ltb_lt _ _) Hlong) in H.
  - split; [exact Hshort|]. split; [reflexivity|]. split; [lia|].
    now exists (List.concat (letters response)).
Qed.

Lemma flairText_answered (response : CompleteResponse) :
  truthy (Some (flairText response)) = true
  /\ jsstring_eqb (flairText response) UNANSWERED = false.
Proof.
  destruct (flairText_head response) as [rest ->]. split; [reflexivity|].
  apply bool_decide_eq_false_2. discriminate.
Qed.

Section FlairAndNotification.

Variable toUpperCase : jsstring -> jsstring.
Variable ToNumber : jsstring -> number.
Variable duration : jsstring -> option Z.
Variable EOL : jsstring.
Variable COMMENT_SCORE_THRESHOLD : option jsstring.

Local Abbreviation updatePostFlair' := (updatePostFlair EOL).
Local Abbreviation runQuery' :=
  (runQuery toUpperCase ToNumber duration EOL COMMENT_SCORE_THRESHOLD).
Local Abbreviation run' :=
  (run toUpperCase ToNumber duration COMMENT_SCORE_THRESHOLD).

Lemma updatePostFlair_cases (post : Submission) (response : CompleteResponse) :
  (link_flair_text post = Some (flairText response) /\ updatePostFlair' post response = [])
  \/ (link_flair_text post <> Some (flairText response)
      /\ updatePostFlair' post response
         = assign_flair (flairText response) OUIJA_RESULT_CLASS
             :: notifyUser EOL post response).
Proof.
  unfold updatePostFlair, jsstring_eqb. cbn zeta.
  destruct (link_flair_text post) as [t|]; [|right; split; [discriminate | reflexivity]].
  case_bool_decide as E; [left; now subst | right].
  split; [congruence | reflexivity].
Qed.

Lemma flairAfter_updatePostFlair (post : Submission) (response : CompleteResponse) :
  link_flair_text (flairAfter post (updatePostFlair' post response))
  = Some (flairText response).
Proof.
  destruct (updatePostFlair_cases post response) as [[H ->] | [_ ->]];
    [exact H | reflexivity].
Qed.

(** X23. Setting the flair of a winner is idempotent: when the submission
    already carries the label nothing is called, otherwise the label is
    assigned with the class of a result and the author is notified once;
    a second call after that does nothing. *)
Theorem updatePostFlair_idempotent (post : Submission) (response : CompleteResponse) :
  (link_flair_text post = Some (flairText response) ->
   updatePostFlair' post response = [])
  /\ (link_flair_text post <> Some (flairText response) ->
      updatePostFlair' post response
      = assign_flair (flairText response) OUIJA_RESULT_CLASS
          :: notifyUser EOL post response)
  /\ updatePostFlair' (flairAfter post (updatePostFlair' post response)) response = [].
Proof.
  pose proof (updatePostFlair_cases post response) as Hcases.
  split; [|split].
  - intros H. destruct Hcases as [[_ E] | [Hne _]]; [exact E | contradiction].
  - intros H. destruct Hcases as [[E _] | [_ E]]; [contradiction | exact E].
  - destruct (updatePostFlair_cases
                (flairAfter post (updatePostFlair' post response)) response)
      as [[_ E] | [Hne _]]; [exact E|].
    exfalso. apply Hne, flairAfter_updatePostFlair.
Qed.

Lemma runQuery_flair (post : Submission) (now : Z) :
  link_flair_text (flairAfter post (snd (runQuery' post now)))
  = match fst (run' (submission_post post) now) with
    | Some r => Some (flairText r)
    | None => Some UNANSWERED
    end.
Proof.
  unfold runQuery.
  destruct (run' (submission_post post) now) as [[r|] query]; cbn [fst snd].
  - apply flairAfter_updatePostFlair.
  - destruct (link_flair_text post) as [t|] eqn:E; [|reflexivity].
    unfold jsstring_eqb. case_bool_decide as Ht; [|reflexivity].
    cbn. rewrite E. now subst.
Qed.

Lemma runQuery_query (post : Submission) (now : Z) :
  fst (runQuery' post now) = snd (run' (submission_post post) now).
Proof.
  unfold runQuery. now destruct (run' (submission_post post) now).
Qed.

(** X24. After [runQuery] the flair tells the outcome: a submission
    without a winner carries the flair [unanswered] and is taken up again
    by the next batch, a submission with a winner carries the label of the
    winner and is not. *)
Theorem flair_tells_the_outcome (post : Submission) (now : Z) :
  let query := fst (runQuery' post now) in
  let after := flairAfter post (snd (runQuery' post now)) in
  isUnanswered after = negb (answered query)
  /\ (answered query = false -> link_flair_text after = Some UNANSWERED)
  /\ (forall r, fst (run' (submission_post post) now) = Some r ->
                link_flair_text after = Some (flairText r)).
Proof.
  cbn zeta. rewrite runQuery_query. unfold isUnanswered. rewrite runQuery_flair.
  unfold run. cbn [fst snd answered].
  destruct (getResponse _ _ _ _ _ _ _) as [r|].
  - destruct (flairText_answered r) as [H1 H2]. rewrite H1, H2.
    repeat split; try discriminate. now intros r' [= ->].
  - repeat split; discriminate.
Qed.

(** X25. Running [runQuery] again at the same time on the submission it
    has just labelled gives the same query: the run collects the same
    sequences and repeats the removal calls of the first run.  Of the
    calls [runQuery] makes after the run, none is repeated: no flair is
    assigned and no message is sent a second time. *)
Theorem runQuery_twice_is_silent (post : Submission) (now : Z) :
  let after := flairAfter post (snd (runQuery' post now)) in
  fst (runQuery' after now) = fst (runQuery' post now)
  /\ removals (responses (fst (runQuery' after now)))
     = removals (collectAll toUpperCase ToNumber (submission_post post))
  /\ snd (runQuery' after now) = [].
Proof.
  cbn zeta. split; [now rewrite !runQuery_query|].
  split; [rewrite runQuery_query; unfold run; reflexivity|].
  pose proof (runQuery_flair post now) as Hflair.
  unfold runQuery at 1.
  change (submission_post (flairAfter post ?e)) with (submission_post post).
  destruct (run' (submission_post post) now) as [[r|] query]; cbn [fst snd] in *.
  - destruct (updatePostFlair_cases
                (flairAfter post (snd (runQuery' post now))) r)
      as [[_ E] | [Hne _]]; [exact E | contradiction].
  - rewrite Hflair. unfold jsstring_eqb. now rewrite bool_decide_eq_true_2.
Qed.

(** X26. The author is sent a message only for a winner whose label the
    submission does not carry yet, and then exactly one, after the flair;
    without a winner no message is sent. *)
Theorem author_is_notified_of_new_winner (post : Submission) (now : Z) :
  let effects := snd (runQuery' post now) in
  (forall r, fst (run' (submission_post post) now) = Some r ->
     link_flair_text post <> Some (flairText r) ->
     effects = assign_flair (flairText r) OUIJA_RESULT_CLASS :: notifyUser EOL post r
     /\ exists text,
          notifyUser EOL post r
          = [compose_message (post_author post) (js "THE OUIJA HAS SPOKEN") text
               SUBREDDIT_NAME])
  /\ (forall r, fst (run' (submission_post post) now) = Some r ->
        link_flair_text post = Some (flairText r) -> effects = [])
  /\ (fst (run' (submission_post post) now) = None ->
      forall to subject text from,
        ~ In (compose_message to subject text from) effects).
Proof.
  cbn zeta. unfold runQuery.
  destruct (run' (submission_post post) now) as [[w|] query]; cbn [fst snd].
  - split; [|split; [|discriminate]].
    + intros r [= <-] Hne.
      destruct (updatePostFlair_cases post w) as [[E _] | [_ E]]; [contradiction|].
      split; [exact E|]. eexists. reflexivity.
    + intros r [= <-] He.
      destruct (updatePostFlair_cases post w) as [[_ E] | [Hne _]];
        [exact E | contradiction].
  - split; [discriminate|]. split; [discriminate|]. intros _ to subject text from.
    destruct (match link_flair_text post with
              | Some t => jsstring_eqb t UNANSWERED
              | None => false
              end); cbn; [tauto|]. intros [H|[]]. discriminate.
Qed.

End FlairAndNotification.

(** ** Concrete runs of the further properties *)

Lemma replaceLink_without_bracket_witness :
  ~ In LBRACKET (js "ok (really)") /\ replaceLink (js "ok (really)") = js "ok (really)".
Proof.
  assert (H : ~ In LBRACKET (js "ok (really)")).
  { intros H. repeat (destruct H as [H|H]; [discriminate H|]). exact H. }
  split; [exact H|]. exact (replaceLink_without_bracket _ H).
Defined.

Lemma replaceLink_link_witness :
  replaceLink (js "see [A](http://a.b/c) !") = js "see A" ++ replaceLink (js " !").
Proof.
  refine (replaceLink_link (js "see ") (js "A") (js "http://a.b/c") (js " !") _ _ _).
  - intros H. repeat (destruct H as [H|H]; [discriminate H|]). exact H.
  - repeat constructor; discriminate.
  - repeat constructor; discriminate.
Defined.

Lemma parseBody_escaped_unit_witness :
  isSpace 42 = false /\ 42 <> BACKSLASH
  /\ parseBody Sample.toUpperCase [BACKSLASH; 42] = parseBody Sample.toUpperCase [42].
Proof.
  assert (H1 : isSpace 42 = false) by reflexivity.
  assert (H2 : 42 <> BACKSLASH) by discriminate.
  split; [exact H1|]. split; [exact H2|].
  exact (proj2 (parseBody_escaped_unit Sample.toUpperCase 42 H1 H2)).
Defined.

Lemma parseConfig_word_entries_witness :
  parseConfig (js "minscore: 8 please") !! MINSCORE = Some (js "8")
  /\ MINSCORE <> PROTO /\ Forall (fun u => isWord u = true) (js "8").
Proof.
  assert (H : parseConfig (js "minscore: 8 please") !! MINSCORE = Some (js "8"))
    by (vm_compute; reflexivity).
  split; [exact H|].
  destruct (parseConfig_word_entries _ _ _ H) as (_ & _ & Hp & _ & Hv).
  split; [exact Hp | exact Hv].
Defined.

Lemma parseConfig_without_colon_witness :
  ~ In COLON (js "no settings here") /\ parseConfig (js "no settings here") = ∅.
Proof.
  assert (H : ~ In COLON (js "no settings here")).
  { intros H. repeat (destruct H as [H|H]; [discriminate H|]). exact H. }
  split; [exact H|]. exact (parseConfig_without_colon _ H).
Defined.

Lemma parseConfig_first_pair_witness :
  parseConfig (js "time : 2h") = {[js "time" := js "2h"]}.
Proof.
  refine (proj2 (parseConfig_first_pair (js "time") (js " ") (js " ") (js "2h") []
                   _ _ _ _ _ _ _ _) eq_refl).
  - repeat constructor.
  - discriminate.
  - discriminate.
  - repeat constructor.
  - repeat constructor.
  - repeat constructor.
  - discriminate.
  - exact I.
Defined.

Lemma siblings_with_replies_both_stay_witness :
  get_body Sample.toUpperCase Cases.branchB = get_body Sample.toUpperCase Cases.branchA
  /\ hasReplies Cases.branchA = true /\ hasReplies Cases.branchB = true
  /\ handleAll Sample.toUpperCase [Cases.branchB; Cases.branchA] (∅, emptyState)
     = (<[get_body Sample.toUpperCase Cases.branchB := Cases.branchB]> ∅, emptyState).
Proof.
  assert (H : get_body Sample.toUpperCase Cases.branchB
              = get_body Sample.toUpperCase Cases.branchA) by (vm_compute; reflexivity).
  split; [exact H|]. split; [reflexivity|]. split; [reflexivity|].
  exact (siblings_with_replies_both_stay Sample.toUpperCase Cases.branchB Cases.branchA
           ∅ emptyState H eq_refl eq_refl (lookup_empty _)).
Defined.

Lemma sibling_with_replies_is_retained_witness :
  get_body Sample.toUpperCase Cases.branchB = get_body Sample.toUpperCase Cases.leaf
  /\ hasReplies Cases.branchB = true /\ hasReplies Cases.leaf = false
  /\ handleAll Sample.toUpperCase [Cases.branchB; Cases.leaf] (∅, emptyState)
     = (<[get_body Sample.toUpperCase Cases.branchB := Cases.branchB]> ∅,
        if get_created Cases.branchB <? get_created Cases.leaf
        then remove Cases.leaf duplicate emptyState else emptyState).
Proof.
  assert (H : get_body Sample.toUpperCase Cases.branchB
              = get_body Sample.toUpperCase Cases.leaf) by (vm_compute; reflexivity).
  split; [exact H|]. split; [reflexivity|]. split; [reflexivity|].
  exact (proj2 (sibling_with_replies_is_retained Sample.toUpperCase Cases.branchB
                  Cases.leaf ∅ emptyState H eq_refl eq_refl (lookup_empty _))).
Defined.

Lemma handler_retains_an_earliest_witness :
  exists w,
    fst (handleAll Sample.toUpperCase [Sample.late; Cases.leaf; Sample.early]
           (∅, emptyState)) !! js "E" = Some w
    /\ In w [Sample.late; Cases.leaf; Sample.early]
    /\ get_body Sample.toUpperCase w = js "E"
    /\ forall c, In c [Sample.late; Cases.leaf; Sample.early] ->
                 get_body Sample.toUpperCase c = js "E" ->
                 get_created w <= get_created c.
Proof.
  refine (handler_retains_an_earliest Sample.toUpperCase
            [Sample.late; Cases.leaf; Sample.early] (js "E") emptyState Sample.early
            _ _ _).
  - intros c Hc _. repeat (destruct Hc as [<-|Hc]; [reflexivity|]). destruct Hc.
  - right. right. left. reflexivity.
  - vm_compute. reflexivity.
Defined.

Lemma incomplete_sequences_are_well_formed_witness :
  In Cases.openK (incomplete (collectAll Sample.toUpperCase Sample.ToNumber Sample.metaPost))
  /\ OuijaComment_type Sample.toUpperCase (lastComment Cases.openK) = Letter.
Proof.
  assert (H : In Cases.openK
                (incomplete (collectAll Sample.toUpperCase Sample.ToNumber Sample.metaPost))).
  { left. vm_compute. reflexivity. }
  split; [exact H|].
  exact (proj2 (proj2 (incomplete_sequences_are_well_formed Sample.toUpperCase
                         Sample.ToNumber Sample.metaPost Cases.openK H))).
Defined.

Lemma thread_spells_its_letters_witness :
  spells Sample.toUpperCase Cases.threadA [js "A"; js "B"] Cases.threadG
  /\ collectResponses Sample.toUpperCase Sample.ToNumber Sample.twoAnswers
       Cases.threadA [] emptyState
     = (true, pushComplete {| letters := [js "A"; js "B"]; goodbye := Cases.threadG |}
                emptyState).
Proof.
  assert (H : spells Sample.toUpperCase Cases.threadA [js "A"; js "B"] Cases.threadG).
  { apply (spells_letter Sample.toUpperCase Cases.threadA Cases.threadB Cases.threadG
             [js "B"]); [reflexivity | reflexivity | discriminate |].
    apply (spells_letter Sample.toUpperCase Cases.threadB Cases.threadG Cases.threadG
             []); [reflexivity | reflexivity | discriminate |].
    apply spells_goodbye. reflexivity. }
  split; [exact H|].
  exact (thread_spells_its_letters Sample.toUpperCase Sample.ToNumber Sample.twoAnswers
           Cases.threadA Cases.threadG [js "A"; js "B"] H [] emptyState eq_refl).
Defined.

Lemma meta_ignores_top_level_invalid_witness :
  isMeta Sample.metaPost || isModPost Sample.metaPost = true
  /\ collectAll Sample.toUpperCase Sample.ToNumber Sample.metaPost
     = collectAll Sample.toUpperCase Sample.ToNumber
         (withComments Sample.metaPost
            (List.filter
               (fun c => match OuijaComment_type Sample.toUpperCase c with
                         | Invalid => false
                         | _ => true
                         end)
               (post_comments Sample.metaPost))).
Proof.
  assert (H : isMeta Sample.metaPost || isModPost Sample.metaPost = true)
    by (vm_compute; reflexivity).
  split; [exact H|].
  exact (meta_ignores_top_level_invalid Sample.toUpperCase Sample.ToNumber
           Sample.metaPost H).
Defined.

Lemma wait_is_over_for_good_witness :
  hasTimeLeft Sample.toUpperCase Sample.duration Sample.waiting 8200000 = false
  /\ 8200000 <= 9000000
  /\ hasTimeLeft Sample.toUpperCase Sample.duration Sample.waiting 9000000 = false.
Proof.
  assert (H1 : hasTimeLeft Sample.toUpperCase Sample.duration Sample.waiting 8200000
               = false) by (vm_compute; reflexivity).
  assert (H2 : 8200000 <= 9000000) by (vm_compute; discriminate).
  split; [exact H1|]. split; [exact H2|].
  exact (proj1 (wait_is_over_for_good Sample.toUpperCase Sample.ToNumber Sample.duration
                  (Some (js "8")) Sample.waiting 8200000 9000000 emptyState H1 H2)).
Defined.
